(** * Discord token checker: format inspector, liveness prober, orchestrator

    A shallow embedding of
      - src/validators/format-validator.ts  (FormatValidator)
      - src/validators/api-validator.ts     (ApiValidator)
      - src/token-checker.ts                (DiscordTokenChecker)
    together with the properties of the validation pipeline.

    JavaScript strings are sequences of UTF-16 code units; they are modelled
    as lists of code units ([N]).  Thrown exceptions are modelled with an
    explicit result type [outcome].  The single network interaction of the
    liveness prober is an input of the model ([net_event]). *)

From Stdlib Require Import ZArith NArith List Bool Lia ZifyBool String Ascii.
Import ListNotations.
Open Scope Z_scope.
Set Warnings "-register-all".

(* ===================================================================== *)
(** ** JavaScript strings *)
(* ===================================================================== *)

Definition code_unit := N.
Definition jsstring := list code_unit.

(** A string literal of the source, as code units. *)
Fixpoint lit (s : string) : jsstring :=
  match s with
  | EmptyString => []
  | String c r => N_of_ascii c :: lit r
  end.

Definition DOT : code_unit := 46%N.
Definition SPACE : code_unit := 32%N.
Definition DQUOTE : code_unit := 34%N.
Definition SQUOTE : code_unit := 39%N.
Definition EQUALS : code_unit := 61%N.
Definition PLUS : code_unit := 43%N.
Definition MINUS : code_unit := 45%N.

Fixpoint str_eqb (a b : jsstring) : bool :=
  match a, b with
  | [], [] => true
  | x :: a', y :: b' => N.eqb x y && str_eqb a' b'
  | _, _ => false
  end.

(** [s.length] *)
Definition len (s : jsstring) : Z := Z.of_nat (List.length s).

(** [arr.length] *)
Definition count {A} (l : list A) : Z := Z.of_nat (List.length l).

(** ECMAScript WhiteSpace and LineTerminator code points, the set removed by
    [String.prototype.trim] and skipped by [parseInt]. *)
Definition is_ws (c : code_unit) : bool :=
  ((9 <=? c) && (c <=? 13) || (c =? 32) || (c =? 160) || (c =? 5760)
   || (8192 <=? c) && (c <=? 8202) || (c =? 8232) || (c =? 8233)
   || (c =? 8239) || (c =? 8287) || (c =? 12288) || (c =? 65279))%N.

Fixpoint trim_start (s : jsstring) : jsstring :=
  match s with
  | [] => []
  | c :: r => if is_ws c then trim_start r else s
  end.

(** [s.trim()] *)
Definition trim (s : jsstring) : jsstring :=
  rev (trim_start (rev (trim_start s))).

(** [s.split(sep)] for a one-character separator: never empty, and the
    empty string splits into one empty part. *)
Fixpoint split (sep : code_unit) (s : jsstring) : list jsstring :=
  match s with
  | [] => [[]]
  | c :: r =>
      if N.eqb c sep then [] :: split sep r
      else match split sep r with
           | p :: ps => (c :: p) :: ps
           | [] => [[c]]
           end
  end.

(** [s.includes(c)] for a one-character needle. *)
Definition includes_char (c : code_unit) (s : jsstring) : bool :=
  existsb (N.eqb c) s.

(** [s.startsWith(p)] *)
Fixpoint startsWith (p s : jsstring) : bool :=
  match p, s with
  | [], _ => true
  | x :: p', y :: s' => N.eqb x y && startsWith p' s'
  | _ :: _, [] => false
  end.

(** [s.endsWith(p)] *)
Definition endsWith (p s : jsstring) : bool :=
  startsWith (rev p) (rev s).

(** [arr.includes(s)] on an array of strings. *)
Definition includes_str (s : jsstring) (arr : list jsstring) : bool :=
  existsb (str_eqb s) arr.

Definition is_digit (c : code_unit) : bool := ((48 <=? c) && (c <=? 57))%N.

(** Decimal digits of a non-negative integer, most significant first. *)
Fixpoint digits_fuel (fuel : nat) (n : Z) : jsstring :=
  match fuel with
  | O => []
  | S f =>
      if n <? 10 then [(48 + Z.to_N n)%N]
      else digits_fuel f (n / 10) ++ [(48 + Z.to_N (n mod 10))%N]
  end.

Definition digits (n : Z) : jsstring :=
  digits_fuel (S (Z.to_nat (Z.log2 n))) n.

(** [String(n)] / [`${n}`] for an integer [n]. *)
Definition decimal (n : Z) : jsstring :=
  if n <? 0 then MINUS :: digits (- n) else digits n.

(* ===================================================================== *)
(** ** Values, errors and results (types/token.types.ts) *)
(* ===================================================================== *)

(** The values a caller can pass where the source declares [token: string]. *)
Inductive jsval :=
| JNull
| JUndefined
| JStr (s : jsstring).

(** Values produced by [JSON.parse].  An object is the list of its
    properties; the first binding of a key is the property's value. *)
Inductive json :=
| JsonNull
| JsonBool (b : bool)
| JsonNumber (n : Z)
| JsonString (s : jsstring)
| JsonArray (items : list json)
| JsonObject (fields : list (jsstring * json)).

Inductive TokenErrorType :=
| INVALID_FORMAT
| TOKEN_NOT_FOUND
| API_ERROR
| NETWORK_ERROR
| RATE_LIMITED
| UNAUTHORIZED
| FILE_NOT_FOUND
| INVALID_CONFIG.

Definition TokenErrorType_eqb (a b : TokenErrorType) : bool :=
  match a, b with
  | INVALID_FORMAT, INVALID_FORMAT | TOKEN_NOT_FOUND, TOKEN_NOT_FOUND
  | API_ERROR, API_ERROR | NETWORK_ERROR, NETWORK_ERROR
  | RATE_LIMITED, RATE_LIMITED | UNAUTHORIZED, UNAUTHORIZED
  | FILE_NOT_FOUND, FILE_NOT_FOUND | INVALID_CONFIG, INVALID_CONFIG => true
  | _, _ => false
  end.

(** The [details] objects the source attaches to a [TokenValidationError]. *)
Inductive error_details :=
| DStatus (statusCode : Z) (response : json)
| DRateLimit (statusCode : Z) (retryAfter : option jsstring) (response : json)
| DParse (parseError : jsstring) (rawData : jsstring)
| DOriginal (originalError : jsstring)
| DTimeout (timeout : Z).

(** Anything a [throw] or a promise rejection can carry. *)
Inductive thrown :=
| TokenValidationError (message : jsstring) (type : TokenErrorType)
                       (details : option error_details)
| JsError (message : jsstring)
| NonError.

(** The result of running code that may throw. *)
Inductive outcome (A : Type) :=
| Return (a : A)
| Throw (e : thrown).
Arguments Return {A} a.
Arguments Throw {A} e.

Definition bind {A B} (m : outcome A) (k : A -> outcome B) : outcome B :=
  match m with
  | Return a => k a
  | Throw e => Throw e
  end.

(** [try { body } catch (e) { handler(e) }] *)
Definition try_catch {A} (body : outcome A) (handler : thrown -> outcome A)
  : outcome A :=
  match body with
  | Return a => Return a
  | Throw e => handler e
  end.

Notation "x <- m ;; k" := (bind m (fun x => k))
  (at level 61, m at next level, right associativity).

Inductive TokenSource := env | file | direct.
Inductive ValidationMethod := format_only | api_only | both.

Record FormatFlags := {
  hasCorrectParts : bool;
  hasCorrectLength : bool;
  hasNoSpaces : bool;
  hasNoQuotes : bool;
  isNotBotToken : bool
}.

Record DiscordUserInfo := {
  id : option json;
  username : option json;
  discriminator : json;
  email : option json;
  verified : option json;
  mfaEnabled : option json;
  premium : bool;
  premiumType : option json;
  avatar : option json;
  banner : option json;
  accentColor : option json
}.

Record ApiInfo := {
  isActive : bool;
  api_userInfo : option DiscordUserInfo;
  api_error : option jsstring
}.

Record Metadata := {
  length : Z;
  parts : Z;
  source : TokenSource
}.

Record TokenValidationResult := {
  isValid : bool;
  format : FormatFlags;
  api : option ApiInfo;
  errors : list jsstring;
  warnings : list jsstring;
  metadata : Metadata
}.

Record ApiValidationResponse := {
  success : bool;
  userInfo : option DiscordUserInfo;
  error : option jsstring;
  statusCode : option Z;
  rateLimited : option bool
}.

(** [TokenCheckerConfig]; [Partial<TokenCheckerConfig>] is the same record
    with every field optional.  The timeout is a whole number of
    milliseconds; NaN and fractional timeouts are outside the model. *)
Record TokenCheckerConfig := {
  checkApi : bool;
  timeout : Z;
  includeUserInfo : bool;
  validateFormat_opt : bool;
  userAgent : option jsstring
}.

Record PartialConfig := {
  p_checkApi : option bool;
  p_timeout : option Z;
  p_includeUserInfo : option bool;
  p_validateFormat : option bool;
  p_userAgent : option jsstring
}.

(* ===================================================================== *)
(** ** FormatValidator (validators/format-validator.ts) *)
(* ===================================================================== *)

(** [if (c) arr.push(m)] *)
Definition push_if (c : bool) (m : jsstring) (arr : list jsstring)
  : list jsstring :=
  if c then arr ++ [m] else arr.

(** The entry a guarded [push] contributes. *)
Definition when (c : bool) (m : jsstring) : list jsstring :=
  if c then [m] else [].

Definition placeholders : list jsstring :=
  [ lit "your_discord_token_here";
    lit "your_discord_user_token_here";
    lit "your_token_here";
    lit "TOKEN_HERE";
    lit "DISCORD_TOKEN" ].

Definition msg_placeholder : jsstring :=
  lit "Token is still using placeholder value".
Definition msg_parts (n : Z) : jsstring :=
  lit "Token should have 3 parts separated by dots, found " ++ decimal n.
Definition msg_too_short (n : Z) : jsstring :=
  lit "Token is too short (" ++ decimal n
  ++ lit " characters). Discord tokens are typically 70+ characters".
Definition msg_might_be_short (n : Z) : jsstring :=
  lit "Token might be too short (" ++ decimal n
  ++ lit " characters). Discord tokens are typically 70+ characters".
Definition msg_spaces : jsstring :=
  lit "Token contains spaces - remove all spaces".
Definition msg_quotes : jsstring :=
  lit "Token has quotes - remove all quotes".
Definition msg_bot : jsstring :=
  lit "This appears to be a BOT token. Self-bots require USER tokens".

Definition warn_user_short : jsstring :=
  lit "First part (user ID) seems too short".
Definition warn_timestamp_short : jsstring :=
  lit "Second part (timestamp) seems too short".
Definition warn_signature_short : jsstring :=
  lit "Third part (signature) seems too short".
Definition warn_user_chars : jsstring :=
  lit "First part contains invalid characters for base64".
Definition warn_timestamp_chars : jsstring :=
  lit "Second part contains invalid characters for base64".
Definition warn_signature_chars : jsstring :=
  lit "Third part contains invalid characters for base64".

(** The character class [[A-Za-z0-9+/=_-]]. *)
Definition base64_class (c : code_unit) : bool :=
  ((65 <=? c) && (c <=? 90) || (97 <=? c) && (c <=? 122)
   || (48 <=? c) && (c <=? 57)
   || (c =? 43) || (c =? 47) || (c =? 61) || (c =? 95) || (c =? 45))%N.

(** [/^[A-Za-z0-9+/=_-]+$/.test(s)] *)
Definition base64Regex_test (s : jsstring) : bool :=
  match s with
  | [] => false
  | _ => forallb base64_class s
  end.

(** [validateTokenStructure(parts, _errors, warnings)]: the two arrays are
    mutated in place by the source; the model returns them. *)
Definition validateTokenStructure
  (parts : list jsstring) (_errors warnings : list jsstring)
  : list jsstring * list jsstring :=
  match parts with
  | [userPart; timestampPart; signaturePart] =>
      let warnings := push_if (len userPart <? 10) warn_user_short warnings in
      let warnings :=
        push_if (len timestampPart <? 6) warn_timestamp_short warnings in
      let warnings :=
        push_if (len signaturePart <? 20) warn_signature_short warnings in
      let warnings :=
        push_if (negb (base64Regex_test userPart)) warn_user_chars warnings in
      let warnings :=
        push_if (negb (base64Regex_test timestampPart))
                warn_timestamp_chars warnings in
      let warnings :=
        push_if (negb (base64Regex_test signaturePart))
                warn_signature_chars warnings in
      (_errors, warnings)
  | _ => (_errors, warnings)
  end.

(** The part of [validateFormat] after the two emptiness guards. *)
Definition validateFormat_trimmed (trimmedToken : jsstring)
  : TokenValidationResult :=
  let errors : list jsstring := [] in
  let warnings : list jsstring := [] in
  let errors :=
    push_if (includes_str trimmedToken placeholders) msg_placeholder errors in
  let tokenParts := split DOT trimmedToken in
  let hasCorrectParts := count tokenParts =? 3 in
  let errors :=
    push_if (negb hasCorrectParts) (msg_parts (count tokenParts)) errors in
  let hasCorrectLength := len trimmedToken >=? 50 in
  let '(errors, warnings) :=
    if negb hasCorrectLength then
      if len trimmedToken <? 30 then
        (errors ++ [msg_too_short (len trimmedToken)], warnings)
      else
        (errors, warnings ++ [msg_might_be_short (len trimmedToken)])
    else (errors, warnings) in
  let hasNoSpaces := negb (includes_char SPACE trimmedToken) in
  let errors := push_if (negb hasNoSpaces) msg_spaces errors in
  let hasNoQuotes :=
    negb (startsWith [DQUOTE] trimmedToken)
    && negb (endsWith [DQUOTE] trimmedToken)
    && negb (startsWith [SQUOTE] trimmedToken)
    && negb (endsWith [SQUOTE] trimmedToken) in
  let errors := push_if (negb hasNoQuotes) msg_quotes errors in
  let isNotBotToken := negb (startsWith (lit "Bot ") trimmedToken) in
  let errors := push_if (negb isNotBotToken) msg_bot errors in
  let '(errors, warnings) :=
    validateTokenStructure tokenParts errors warnings in
  let isValid := count errors =? 0 in
  {| isValid := isValid;
     format := {| hasCorrectParts := hasCorrectParts;
                  hasCorrectLength := hasCorrectLength;
                  hasNoSpaces := hasNoSpaces;
                  hasNoQuotes := hasNoQuotes;
                  isNotBotToken := isNotBotToken |};
     api := None;
     errors := errors;
     warnings := warnings;
     metadata := {| length := len trimmedToken;
                    parts := count tokenParts;
                    source := direct |} |}.

(** [FormatValidator.validateFormat(token)] *)
Definition validateFormat (token : jsval) : outcome TokenValidationResult :=
  match token with
  | JNull | JUndefined | JStr [] =>
      Throw (TokenValidationError (lit "Token is null or undefined")
                                  TOKEN_NOT_FOUND None)
  | JStr s =>
      let trimmedToken := trim s in
      if len trimmedToken =? 0 then
        Throw (TokenValidationError (lit "Token is empty")
                                    TOKEN_NOT_FOUND None)
      else Return (validateFormat_trimmed trimmedToken)
  end.

(* ===================================================================== *)
(** ** Platform functions used by the extraction utilities

    [Buffer.from(s, 'base64')], [buf.toString('utf-8')], [/^\d+$/],
    [parseInt(s, 10)] and [new Date(ms)] belong to Node and ECMAScript, not
    to the repository; they are modelled after their specifications. *)
(* ===================================================================== *)

Definition byte := N.

(** The decoder reads every code unit of the string as one byte, its low
    eight bits ([static_cast<uint8_t>] in Node's decoder). *)
Definition low_byte (c : code_unit) : byte := (c mod 256)%N.

(** The value of a base64 character byte, in the standard or the URL-safe
    alphabet; [None] for any other byte. *)
Definition unbase64 (c : byte) : option N :=
  (if (65 <=? c) && (c <=? 90) then Some (c - 65)
   else if (97 <=? c) && (c <=? 122) then Some (c - 71)
   else if (48 <=? c) && (c <=? 57) then Some (c + 4)
   else if (c =? 43) || (c =? 45) then Some 62
   else if (c =? 47) || (c =? 95) then Some 63
   else None)%N.

(** Node's decoder is forgiving: bytes outside the alphabets are skipped
    and the first [=] ends the input. *)
Fixpoint sextets (s : jsstring) : list N :=
  match s with
  | [] => []
  | c :: r =>
      let b := low_byte c in
      if N.eqb b EQUALS then []
      else match unbase64 b with
           | Some v => v :: sextets r
           | None => sextets r
           end
  end.

Fixpoint bytes_of_sextets (l : list N) : list byte :=
  match l with
  | a :: b :: c :: d :: r =>
      (a * 4 + b / 16)%N :: ((b mod 16) * 16 + c / 4)%N
      :: ((c mod 4) * 64 + d)%N :: bytes_of_sextets r
  | [a; b; c] => [(a * 4 + b / 16)%N; ((b mod 16) * 16 + c / 4)%N]
  | [a; b] => [(a * 4 + b / 16)%N]
  | _ => []
  end.

(** [Buffer.from(s, 'base64')] *)
Definition Buffer_from_base64 (s : jsstring) : list byte :=
  bytes_of_sextets (sextets s).

Definition REPLACEMENT : code_unit := 65533%N.

Definition in_range (lo hi b : N) : bool := ((lo <=? b) && (b <=? hi))%N.

(** A code point as UTF-16 code units. *)
Definition utf16 (cp : N) : jsstring :=
  (if cp <? 65536 then [cp]
   else [55296 + (cp - 65536) / 1024; 56320 + (cp - 65536) mod 1024])%N.

(** [buf.toString('utf-8')]: UTF-8 decoding in which every maximal
    ill-formed subsequence becomes U+FFFD. *)
Fixpoint utf8_decode (bs : list byte) : jsstring :=
  match bs with
  | [] => []
  | b :: r =>
      if (b <=? 127)%N then b :: utf8_decode r
      else if in_range 194 223 b then
        match r with
        | c1 :: r1 =>
            if in_range 128 191 c1
            then utf16 ((b - 192) * 64 + (c1 - 128))%N ++ utf8_decode r1
            else REPLACEMENT :: utf8_decode r
        | [] => [REPLACEMENT]
        end
      else if in_range 224 239 b then
        let lo := if (b =? 224)%N then 160%N else 128%N in
        let hi := if (b =? 237)%N then 159%N else 191%N in
        match r with
        | c1 :: r1 =>
            if in_range lo hi c1 then
              match r1 with
              | c2 :: r2 =>
                  if in_range 128 191 c2
                  then utf16 (((b - 224) * 64 + (c1 - 128)) * 64
                              + (c2 - 128))%N ++ utf8_decode r2
                  else REPLACEMENT :: utf8_decode r1
              | [] => [REPLACEMENT]
              end
            else REPLACEMENT :: utf8_decode r
        | [] => [REPLACEMENT]
        end
      else if in_range 240 244 b then
        let lo := if (b =? 240)%N then 144%N else 128%N in
        let hi := if (b =? 244)%N then 143%N else 191%N in
        match r with
        | c1 :: r1 =>
            if in_range lo hi c1 then
              match r1 with
              | c2 :: r2 =>
                  if in_range 128 191 c2 then
                    match r2 with
                    | c3 :: r3 =>
                        if in_range 128 191 c3
                        then utf16 ((((b - 240) * 64 + (c1 - 128)) * 64
                                     + (c2 - 128)) * 64 + (c3 - 128))%N
                             ++ utf8_decode r3
                        else REPLACEMENT :: utf8_decode r2
                    | [] => [REPLACEMENT]
                    end
                  else REPLACEMENT :: utf8_decode r1
              | [] => [REPLACEMENT]
              end
            else REPLACEMENT :: utf8_decode r
        | [] => [REPLACEMENT]
        end
      else REPLACEMENT :: utf8_decode r
  end.

(** [Buffer.from(s, 'base64').toString('utf-8')] *)
Definition base64_to_utf8 (s : jsstring) : jsstring :=
  utf8_decode (Buffer_from_base64 s).

(** [/^\d+$/.test(s)] *)
Definition all_digits_test (s : jsstring) : bool :=
  match s with
  | [] => false
  | _ => forallb is_digit s
  end.

(** The longest prefix of decimal digits. *)
Fixpoint digit_prefix (s : jsstring) : jsstring :=
  match s with
  | c :: r => if is_digit c then c :: digit_prefix r else []
  | [] => []
  end.

Definition digits_value (ds : jsstring) : Z :=
  fold_left (fun acc c => acc * 10 + (Z.of_N c - 48)) ds 0.

(** [parseInt(s, 10)]: leading white space is skipped, one sign is
    accepted, then the longest run of digits is read; [None] is NaN.
    The value is the mathematical integer.  As a Number it is rounded to
    binary64, which changes nothing below 2^53; a larger magnitude,
    rounded or not, is outside the time range once multiplied by 1000, so
    [Date_of_seconds] below is exact for every value. *)
Definition parseInt10 (s : jsstring) : option Z :=
  let s := trim_start s in
  let '(sign, s) :=
    match s with
    | c :: r => if N.eqb c MINUS then (-1, r)
                else if N.eqb c PLUS then (1, r) else (1, s)
    | [] => (1, s)
    end in
  match digit_prefix s with
  | [] => None
  | ds => Some (sign * digits_value ds)
  end.

(** An integer-valued JavaScript Number, the kind [parseInt] returns;
    [Num 0] stands for both zeros. *)
Inductive jsnumber :=
| NaN
| Infinity (negative : bool)
| Num (z : Z).

(** The Number for a mathematical integer: the nearest binary64 value,
    ties to even, infinite from 2^1024 on.  Below 2^53 every integer is a
    binary64 value; above, the 53 leading bits are kept and rounded. *)
Definition Number_of_Z (z : Z) : jsnumber :=
  let m := Z.abs z in
  if m <? 2 ^ 53 then Num z
  else
    let e := Z.log2 m - 52 in
    let q := m / 2 ^ e in
    let r := m mod 2 ^ e in
    let half := 2 ^ (e - 1) in
    let q := if (half <? r) || ((r =? half) && Z.odd q) then q + 1 else q in
    let rounded := q * 2 ^ e in
    if 2 ^ 1024 <=? rounded then Infinity (z <? 0)
    else Num (Z.sgn z * rounded).

(** [parseInt(s, 10)] as the Number the caller receives. *)
Definition parseInt (s : jsstring) : jsnumber :=
  match parseInt10 s with
  | None => NaN
  | Some z => Number_of_Z z
  end.

(** A [Date] is its time value in milliseconds; [None] is the invalid
    date (time value NaN). *)
Definition Date := option Z.

(** [new Date(ms)] with TimeClip. *)
Definition new_Date (ms : Z) : Date :=
  if Z.abs ms <=? 8640000000000000 then Some ms else None.

(** [new Date(timestamp * 1000)] *)
Definition Date_of_seconds (timestamp : Z) : Date :=
  new_Date (timestamp * 1000).

(** [token.split('.')], a TypeError when [token] is not a string. *)
Definition js_split (sep : code_unit) (token : jsval)
  : outcome (list jsstring) :=
  match token with
  | JStr s => Return (split sep s)
  | JNull =>
      Throw (JsError (lit "Cannot read properties of null (reading 'split')"))
  | JUndefined =>
      Throw (JsError
               (lit "Cannot read properties of undefined (reading 'split')"))
  end.

(** [token.length] *)
Definition js_length (token : jsval) : outcome Z :=
  match token with
  | JStr s => Return (len s)
  | JNull =>
      Throw (JsError (lit "Cannot read properties of null (reading 'length')"))
  | JUndefined =>
      Throw (JsError
               (lit "Cannot read properties of undefined (reading 'length')"))
  end.

(** [FormatValidator.extractUserId(token)] *)
Definition extractUserId (token : jsval) : outcome (option jsstring) :=
  try_catch
    (parts <- js_split DOT token ;;
     if negb (count parts =? 3) then Return None
     else
       let userIdPart := nth 0 parts [] in
       let decoded := base64_to_utf8 userIdPart in
       if all_digits_test decoded then Return (Some decoded)
       else Return None)
    (fun _ => Return None).

(** [FormatValidator.extractTimestamp(token)] *)
Definition extractTimestamp (token : jsval) : outcome (option Date) :=
  try_catch
    (parts <- js_split DOT token ;;
     if negb (count parts =? 3) then Return None
     else
       let timestampPart := nth 1 parts [] in
       let decoded := base64_to_utf8 timestampPart in
       match parseInt10 decoded with
       | None => Return None
       | Some timestamp => Return (Some (Date_of_seconds timestamp))
       end)
    (fun _ => Return None).

(** [DiscordTokenChecker.quickFormatCheck(token)] (token-checker.ts) *)
Definition quickFormatCheck (token : jsval) : outcome bool :=
  try_catch
    (result <- validateFormat token ;;
     Return (isValid result))
    (fun _ => Return false).

(* ===================================================================== *)
(** ** Token construction, for the round-trip property

    The standard base64 encoder, with padding, as
    [Buffer.from(bytes).toString('base64')] computes it.  It is not part of
    the checker; the round-trip property builds its tokens with it. *)
(* ===================================================================== *)

Definition base64_char (v : N) : code_unit :=
  (if v <? 26 then v + 65
   else if v <? 52 then v + 71
   else if v <? 62 then v - 4
   else if v =? 62 then 43
   else 47)%N.

Fixpoint base64_encode (bs : list byte) : jsstring :=
  match bs with
  | a :: b :: c :: r =>
      base64_char (a / 4) :: base64_char ((a mod 4) * 16 + b / 16)
      :: base64_char ((b mod 16) * 4 + c / 64) :: base64_char (c mod 64)
      :: base64_encode r
  | [a; b] =>
      [base64_char (a / 4); base64_char ((a mod 4) * 16 + b / 16);
       base64_char ((b mod 16) * 4); EQUALS]
  | [a] => [base64_char (a / 4); base64_char ((a mod 4) * 16); EQUALS; EQUALS]
  | [] => []
  end%N.

(** A string of ASCII characters: its UTF-8 bytes are its code units. *)
Definition is_ascii (s : jsstring) : Prop := Forall (fun c => (c <= 127)%N) s.

(** [Buffer.from(s).toString('base64')] for an ASCII string [s]. *)
Definition base64_of_ascii (s : jsstring) : jsstring := base64_encode s.

(** The token [seg1.seg2.seg3]. *)
Definition join3 (seg1 seg2 seg3 : jsstring) : jsstring :=
  seg1 ++ DOT :: seg2 ++ DOT :: seg3.

(** The largest magnitude, in seconds, of a time a [Date] can hold. *)
Definition MAX_EPOCH_SECONDS : Z := 8640000000000.

(* ===================================================================== *)
(** ** The URL-safe base64 character set *)
(* ===================================================================== *)

(** The character set the specification names for the segment check: the
    URL-safe base64 alphabet (letters, digits, [-] and [_]) with the
    padding character.  The source tests [base64_class] instead, which
    also admits [+] and [/]. *)
Definition url_safe_base64_class (c : code_unit) : bool :=
  ((65 <=? c) && (c <=? 90) || (97 <=? c) && (c <=? 122)
   || (48 <=? c) && (c <=? 57)
   || (c =? 45) || (c =? 95) || (c =? 61))%N.

Definition url_safe_base64_test (s : jsstring) : bool :=
  match s with
  | [] => false
  | _ => forallb url_safe_base64_class s
  end.

(** A token of 50 characters whose first segment uses [+] and [/]. *)
Definition standard_alphabet_token : jsstring :=
  lit "aaaaaaaa+/.bbbbbb.cccccccccccccccccccccccccccccccc".

(* ===================================================================== *)
(** ** Messages of the graded length rule *)
(* ===================================================================== *)

(** The hard error and the warning of the length rule are recognised by
    their fixed prefixes. *)
Definition is_length_message (m : jsstring) : bool :=
  startsWith (lit "Token is too short (") m
  || startsWith (lit "Token might be too short (") m.

(* ===================================================================== *)
(** ** ApiValidator (validators/api-validator.ts) *)
(* ===================================================================== *)

(** The outcome of [JSON.parse(data)]. *)
Inductive parse_outcome :=
| SyntaxError (message : jsstring)
| Parsed (response : json).

(** What the ['end'] handler sees of the response: the status code, the
    [retry-after] header, the accumulated body, and what [JSON.parse]
    makes of that body. *)
Record IncomingMessage := {
  res_statusCode : Z;
  res_retry_after : option jsstring;
  data : jsstring;
  JSON_parse_data : parse_outcome
}.

(** The one event that settles the promise of [makeApiRequest]: the
    response ended, the request emitted ['error'] or ['timeout'], or
    [https.request] itself threw inside the promise executor. *)
Inductive net_event :=
| ResponseEnd (res : IncomingMessage)
| RequestError (message : jsstring)
| RequestTimeout
| RequestThrows (e : thrown).

Definition DEFAULT_TIMEOUT : Z := 10000.
Definition DEFAULT_USER_AGENT : jsstring := lit "DiscordTokenChecker/1.0.0".

(** [response.key] on a non-null JSON value; [None] is [undefined]. *)
Fixpoint lookup (key : jsstring) (fields : list (jsstring * json))
  : option json :=
  match fields with
  | [] => None
  | (k, v) :: r => if str_eqb k key then Some v else lookup key r
  end.

Definition get (response : json) (key : string) : option json :=
  match response with
  | JsonObject fields => lookup (lit key) fields
  | _ => None
  end.

(** JavaScript truthiness of an optional JSON value. *)
Definition truthy (v : option json) : bool :=
  match v with
  | None | Some JsonNull => false
  | Some (JsonBool b) => b
  | Some (JsonNumber n) => negb (n =? 0)
  | Some (JsonString s) => negb (len s =? 0)
  | Some (JsonArray _) | Some (JsonObject _) => true
  end.

(** Whether converting a JSON value to a primitive throws a TypeError.
    An object built by [JSON.parse] converts to "[object Object]" unless it
    has an own [toString] property, which is never callable and leaves no
    conversion method.  An array converts through [join], which converts
    each element other than [null].  Primitives convert as they are. *)
Fixpoint toPrimitive_throws (v : json) : bool :=
  match v with
  | JsonObject fields =>
      match lookup (lit "toString") fields with
      | Some _ => true
      | None => false
      end
  | JsonArray items => existsb toPrimitive_throws items
  | _ => false
  end.

(** The same for an optional value; [undefined] converts to NaN. *)
Definition comparison_throws (v : option json) : bool :=
  match v with
  | Some x => toPrimitive_throws x
  | None => false
  end.

(** [`${retryAfter}`] *)
Definition show_header (h : option jsstring) : jsstring :=
  match h with
  | Some s => s
  | None => lit "undefined"
  end.

Definition msg_unauthorized : jsstring := lit "Token is invalid or expired".
Definition msg_rate_limited (retryAfter : option jsstring) : jsstring :=
  lit "Rate limited. Retry after " ++ show_header retryAfter ++ lit " seconds".
Definition msg_forbidden : jsstring :=
  lit "Access forbidden. Token may be valid but lacks permissions".
Definition msg_status (code : Z) : jsstring :=
  lit "API request failed with status " ++ decimal code.
Definition msg_parse_failed : jsstring := lit "Failed to parse API response".
Definition msg_network (m : jsstring) : jsstring := lit "Network error: " ++ m.
Definition msg_timeout (ms : Z) : jsstring :=
  lit "Request timeout after " ++ decimal ms ++ lit "ms".

(** [error instanceof Error ? error.message : fallback] *)
Definition message_or (fallback : jsstring) (e : thrown) : jsstring :=
  match e with
  | TokenValidationError m _ _ => m
  | JsError m => m
  | NonError => fallback
  end.

(** [error.details?.statusCode] *)
Definition details_statusCode (d : option error_details) : option Z :=
  match d with
  | Some (DStatus c _) => Some c
  | Some (DRateLimit c _ _) => Some c
  | _ => None
  end.

(** A promise that has settled: [Return] is fulfilment, [Throw] is
    rejection. *)
Definition promise := outcome.
Definition resolve {A} (a : A) : promise A := Return a.
Definition reject {A} (e : thrown) : promise A := Throw e.

(* ===================================================================== *)
(** ** Sample inputs *)
(* ===================================================================== *)

(** The configuration a checker gets from its constructor's defaults. *)
Definition default_config : TokenCheckerConfig :=
  {| checkApi := true;
     timeout := 10000;
     includeUserInfo := true;
     validateFormat_opt := true;
     userAgent := Some DEFAULT_USER_AGENT |}.

Definition sample_user_id : jsstring := lit "123456789012345678".

(** [MTIzNDU2Nzg5MDEyMzQ1Njc4.MTcwMDAwMDAwMA==.abcdefghijklmnopqrstuvwxyz0] *)
Definition sample_token : jsstring :=
  join3 (base64_of_ascii sample_user_id)
        (base64_of_ascii (decimal 1700000000))
        (lit "abcdefghijklmnopqrstuvwxyz0").

(** A well-formed token of 42 characters. *)
Definition short_token : jsstring :=
  lit "aaaaaaaaaa.bbbbbbbbbb.cccccccccccccccccccc".

(** Three segments, all of them too short, the last one not base64. *)
Definition odd_token : jsstring := lit "abc.de.f!".

(** A 401 response with the JSON body [{}]. *)
Definition unauthorized_response : IncomingMessage :=
  {| res_statusCode := 401;
     res_retry_after := None;
     data := lit "{}";
     JSON_parse_data := Parsed (JsonObject []) |}.

(** A 401 response with an empty body, on which [JSON.parse] throws. *)
Definition unauthorized_empty_body : IncomingMessage :=
  {| res_statusCode := 401;
     res_retry_after := None;
     data := [];
     JSON_parse_data := SyntaxError (lit "Unexpected end of JSON input") |}.

(** A 429 response with [retry-after: 5]. *)
Definition rate_limited_response : IncomingMessage :=
  {| res_statusCode := 429;
     res_retry_after := Some (lit "5");
     data := lit "{}";
     JSON_parse_data := Parsed (JsonObject []) |}.

(** A platform comparison for the sample runs; no sample payload has a
    [premium_type]. *)
Definition sample_gt_zero (v : option json) : bool :=
  match v with
  | Some (JsonNumber n) => 0 <? n
  | Some (JsonBool b) => b
  | _ => false
  end.

(* ===================================================================== *)
(** ** The file system and the environment, as the checker sees them *)
(* ===================================================================== *)

(** [FileTokenOptions] *)
Record FileTokenOptions := {
  filePath : jsstring;
  cleanup : option bool
}.

(** [EnvTokenOptions] *)
Record EnvTokenOptions := {
  envPath : option jsstring;
  tokenVar : option jsstring
}.

(** What the file system answers during one call of [validateFromFile]:
    [fs.existsSync(filePath)], [fs.readFileSync(filePath, 'utf8')] and
    [fs.unlinkSync(filePath)]. *)
Record FileWorld := {
  existsSync : bool;
  readFileSync : outcome jsstring;
  unlinkSync : outcome unit
}.

(** The result of [validateFromFile] and whether the token file was
    removed by the call. *)
Record FileRun := {
  file_outcome : outcome TokenValidationResult;
  file_removed : bool
}.

(** What the platform answers during one call of [validateFromEnv]:
    [path.join(process.cwd(), '.env')], [fs.existsSync(path)], and
    [process.env[name]] once dotenv's [config({ path })] has run. *)
Record EnvWorld := {
  cwd_env : jsstring;
  env_existsSync : jsstring -> bool;
  process_env : jsstring -> jsstring -> option jsstring
}.

(** The reduced result of [ApiValidator.quickTest]. *)
Record QuickResult := {
  valid : bool;
  quick_error : option jsstring
}.

(* ===================================================================== *)
(** ** TokenCheckerCLI.getTokenAge (cli.ts) *)
(* ===================================================================== *)

Definition MS_PER_HOUR : Z := 1000 * 60 * 60.
Definition MS_PER_DAY : Z := 1000 * 60 * 60 * 24.

(** [getTokenAge(timestamp)], given the time values of [new Date()] and of
    [timestamp], both valid dates.  [Math.floor(a / b)] is the floor
    division of the integers: the magnitudes stay below 2^53, where the
    binary64 quotient cannot reach the next integer. *)
Definition getTokenAge (now timestamp : Z) : jsstring :=
  let diffMs := now - timestamp in
  let diffDays := diffMs / MS_PER_DAY in
  if diffDays <? 1 then
    let diffHours := diffMs / MS_PER_HOUR in
    decimal diffHours ++ lit " hours"
  else if diffDays <? 30 then decimal diffDays ++ lit " days"
  else if diffDays <? 365 then
    let diffMonths := diffDays / 30 in
    decimal diffMonths ++ lit " months"
  else
    let diffYears := diffDays / 365 in
    decimal diffYears ++ lit " years".

(** A string conversion of thrown values, for the sample runs. *)
Definition sample_String_of (e : thrown) : jsstring :=
  match e with
  | TokenValidationError m _ _ => lit "TokenValidationError: " ++ m
  | JsError m => lit "Error: " ++ m
  | NonError => lit "undefined"
  end.

(** A token file holding [sample_token] followed by a line break, which
    cannot be removed. *)
Definition sample_file_world : FileWorld :=
  {| existsSync := true;
     readFileSync := Return (sample_token ++ [10%N]);
     unlinkSync :=
       Throw (JsError (lit "EACCES: permission denied, unlink 'input.txt'")) |}.

(** An environment whose [.env] file defines [DISCORD_TOKEN]. *)
Definition sample_env_world : EnvWorld :=
  {| cwd_env := lit "/app/.env";
     env_existsSync := fun p => str_eqb p (lit "/app/.env");
     process_env :=
       fun p name =>
         if str_eqb p (lit "/app/.env") && str_eqb name (lit "DISCORD_TOKEN")
         then Some sample_token else None |}.

(** A 200 response whose body gives [premium_type] an object with own
    [valueOf] and [toString] properties. *)
Definition unconvertible_premium_body : jsstring :=
  lit "{" ++ DQUOTE :: lit "premium_type" ++ DQUOTE :: lit ":{"
  ++ DQUOTE :: lit "valueOf" ++ DQUOTE :: lit ":0,"
  ++ DQUOTE :: lit "toString" ++ DQUOTE :: lit ":0}}".

Definition unconvertible_premium_response : IncomingMessage :=
  {| res_statusCode := 200;
     res_retry_after := None;
     data := unconvertible_premium_body;
     JSON_parse_data :=
       Parsed
         (JsonObject
            [(lit "premium_type",
              JsonObject [(lit "valueOf", JsonNumber 0);
                          (lit "toString", JsonNumber 0)])]) |}.

(** A 200 response with the JSON body [{}]. *)
Definition ok_response : IncomingMessage :=
  {| res_statusCode := 200;
     res_retry_after := None;
     data := lit "{}";
     JSON_parse_data := Parsed (JsonObject []) |}.

Section Pipeline.

(** The value of the JavaScript comparison [v > 0] on an optional JSON
    value whose conversion to a primitive succeeds: the ToNumber coercion
    of the platform. *)
Variable gt_zero : option json -> bool.

(** [v > 0]: the conversion to a primitive may throw. *)
Definition js_gt_zero (v : option json) : outcome bool :=
  if comparison_throws v then
    Throw (JsError (lit "Cannot convert object to primitive value"))
  else Return (gt_zero v).

(** [ApiValidator.parseUserInfo(response)] *)
Definition parseUserInfo (response : json) : outcome DiscordUserInfo :=
  match response with
  | JsonNull =>
      Throw (JsError (lit "Cannot read properties of null (reading 'id')"))
  | _ =>
      premium <- js_gt_zero (get response "premium_type") ;;
      Return
        {| id := get response "id";
           username := get response "username";
           discriminator :=
             match get response "discriminator" with
             | Some d => if truthy (Some d) then d else JsonString (lit "0")
             | None => JsonString (lit "0")
             end;
           email := get response "email";
           verified := get response "verified";
           mfaEnabled := get response "mfa_enabled";
           premium := premium;
           premiumType := get response "premium_type";
           avatar := get response "avatar";
           banner := get response "banner";
           accentColor := get response "accent_color" |}
  end.

(** The ['end'] handler of [makeApiRequest].  The [try] body either throws
    or settles the promise; whatever it throws is turned into a rejection
    by the [catch].  The [switch] compares the status code with its cases
    in order. *)
Definition on_end (res : IncomingMessage) : promise DiscordUserInfo :=
  match
    (response <-
       match JSON_parse_data res with
       | Parsed response => Return response
       | SyntaxError m => Throw (JsError m)
       end ;;
     let code := res_statusCode res in
     if code =? 200 then
       parsed <- parseUserInfo response ;;
       Return (resolve parsed)
     else if code =? 401 then
       Return (reject (TokenValidationError msg_unauthorized UNAUTHORIZED
                         (Some (DStatus 401 response))))
     else if code =? 429 then
       let retryAfter := res_retry_after res in
       Return (reject (TokenValidationError (msg_rate_limited retryAfter)
                         RATE_LIMITED
                         (Some (DRateLimit 429 retryAfter response))))
     else if code =? 403 then
       Return (reject (TokenValidationError msg_forbidden API_ERROR
                         (Some (DStatus 403 response))))
     else
       Return (reject (TokenValidationError (msg_status code) API_ERROR
                         (Some (DStatus code response)))))
  with
  | Return settled => settled
  | Throw parseError =>
      reject (TokenValidationError msg_parse_failed API_ERROR
                (Some (DParse (message_or [] parseError) (data res))))
  end.

(** [ApiValidator.makeApiRequest(token, config)], given the event that
    settles its promise. *)
Definition makeApiRequest
  (token : jsval) (config : TokenCheckerConfig) (ev : net_event)
  : promise DiscordUserInfo :=
  match ev with
  | ResponseEnd res => on_end res
  | RequestError message =>
      reject (TokenValidationError (msg_network message) NETWORK_ERROR
                (Some (DOriginal message)))
  | RequestTimeout =>
      reject (TokenValidationError (msg_timeout (timeout config))
                NETWORK_ERROR (Some (DTimeout (timeout config))))
  | RequestThrows e => reject e
  end.

(** [a || b] on an optional number and on an optional string. *)
Definition or_number (a : option Z) (b : Z) : Z :=
  match a with
  | Some n => if n =? 0 then b else n
  | None => b
  end.

Definition or_string (a : option jsstring) (b : jsstring) : jsstring :=
  match a with
  | Some [] | None => b
  | Some s => s
  end.

(** [a ?? b] *)
Definition nullish {A} (a : option A) (b : A) : A :=
  match a with
  | Some x => x
  | None => b
  end.

(** [ApiValidator.validateWithApi(token, config)] *)
Definition validateWithApi
  (token : jsval) (config : PartialConfig) (ev : net_event)
  : outcome ApiValidationResponse :=
  let finalConfig :=
    {| checkApi := true;
       timeout := or_number (p_timeout config) DEFAULT_TIMEOUT;
       includeUserInfo := nullish (p_includeUserInfo config) true;
       validateFormat_opt := nullish (p_validateFormat config) false;
       userAgent :=
         Some (or_string (p_userAgent config) DEFAULT_USER_AGENT) |} in
  try_catch
    (parsed <- makeApiRequest token finalConfig ev ;;
     let response :=
       {| success := true; userInfo := None; error := None;
          statusCode := None; rateLimited := None |} in
     let response :=
       if includeUserInfo finalConfig then
         {| success := success response; userInfo := Some parsed;
            error := error response; statusCode := statusCode response;
            rateLimited := rateLimited response |}
       else response in
     Return response)
    (fun e =>
       match e with
       | TokenValidationError message type details =>
           Return {| success := false;
                     userInfo := None;
                     error := Some message;
                     statusCode := details_statusCode details;
                     rateLimited :=
                       Some (TokenErrorType_eqb type RATE_LIMITED) |}
       | _ =>
           Return {| success := false;
                     userInfo := None;
                     error := Some (message_or (lit "Unknown error") e);
                     statusCode := None;
                     rateLimited := None |}
       end).

(* ===================================================================== *)
(** ** DiscordTokenChecker (token-checker.ts) *)
(* ===================================================================== *)

(** [this.config] handed to a parameter of type
    [Partial<TokenCheckerConfig>]. *)
Definition as_partial (c : TokenCheckerConfig) : PartialConfig :=
  {| p_checkApi := Some (checkApi c);
     p_timeout := Some (timeout c);
     p_includeUserInfo := Some (includeUserInfo c);
     p_validateFormat := Some (validateFormat_opt c);
     p_userAgent := userAgent c |}.

Definition with_source (r : TokenValidationResult) (s : TokenSource)
  : TokenValidationResult :=
  {| isValid := isValid r; format := format r; api := api r;
     errors := errors r; warnings := warnings r;
     metadata := {| length := length (metadata r);
                    parts := parts (metadata r);
                    source := s |} |}.

(** [string] truthiness of an optional string. *)
Definition truthy_str (s : option jsstring) : bool :=
  match s with
  | Some (_ :: _) => true
  | _ => false
  end.

Definition msg_api_failed (e : jsstring) : jsstring :=
  lit "API validation failed: " ++ e.
Definition msg_api_error (e : jsstring) : jsstring :=
  lit "API validation error: " ++ e.

(** The API step of [validateToken]: the [try] block around
    [validateWithApi] and its [catch]. *)
Definition api_step
  (result : TokenValidationResult) (call : outcome ApiValidationResponse)
  : TokenValidationResult :=
  match call with
  | Return apiResult =>
      let apiInfo :=
        {| isActive := success apiResult;
           api_userInfo := userInfo apiResult;
           api_error :=
             if truthy_str (error apiResult) then error apiResult
             else None |} in
      if negb (success apiResult) then
        {| isValid := false;
           format := format result;
           api := Some apiInfo;
           errors :=
             match error apiResult with
             | Some (c :: e) => errors result ++ [msg_api_failed (c :: e)]
             | _ => errors result
             end;
           warnings := warnings result;
           metadata := metadata result |}
      else
        {| isValid := isValid result;
           format := format result;
           api := Some apiInfo;
           errors := errors result;
           warnings := warnings result;
           metadata := metadata result |}
  | Throw e =>
      let api_error := message_or (lit "Unknown API error") e in
      {| isValid := false;
         format := format result;
         api := Some {| isActive := false;
                        api_userInfo := None;
                        api_error := Some api_error |};
         errors := errors result ++ [msg_api_error api_error];
         warnings := warnings result;
         metadata := metadata result |}
  end.

(** The placeholder verdict of API-only validation. *)
Definition all_flags_true : FormatFlags :=
  {| hasCorrectParts := true; hasCorrectLength := true; hasNoSpaces := true;
     hasNoQuotes := true; isNotBotToken := true |}.

Definition is_format_only (m : ValidationMethod) : bool :=
  match m with format_only => true | _ => false end.

(** [DiscordTokenChecker.validateToken(token, source, method)] on a checker
    whose configuration is [config]; [ev] is the event that settles the
    request when the API step runs. *)
Definition validateToken
  (config : TokenCheckerConfig) (token : jsval) (source : TokenSource)
  (method : ValidationMethod) (ev : net_event)
  : outcome TokenValidationResult :=
  result <-
    match method with
    | format_only | both =>
        result <- validateFormat token ;;
        Return (with_source result source)
    | api_only =>
        length <- js_length token ;;
        parts <- js_split DOT token ;;
        Return {| isValid := true;
                  format := {| hasCorrectParts := true;
                               hasCorrectLength := true;
                               hasNoSpaces := true;
                               hasNoQuotes := true;
                               isNotBotToken := true |};
                  api := None;
                  errors := [];
                  warnings := [];
                  metadata := {| length := length;
                                 parts := count parts;
                                 source := source |} |}
    end ;;
  if negb (isValid result) && is_format_only method then Return result
  else if negb (is_format_only method) && checkApi config then
    Return (api_step result (validateWithApi token (as_partial config) ev))
  else Return result.



(* ===================================================================== *)
(** ** ApiValidator, remaining members *)
(* ===================================================================== *)

(** [ApiValidator.quickTest(token, timeout = DEFAULT_TIMEOUT)]; an omitted
    [timeout] is [None]. *)
Definition quickTest
  (token : jsval) (timeout : option Z) (ev : net_event)
  : outcome QuickResult :=
  let timeout := nullish timeout DEFAULT_TIMEOUT in
  try_catch
    (result <-
       validateWithApi token
         {| p_checkApi := None;
            p_timeout := Some timeout;
            p_includeUserInfo := Some false;
            p_validateFormat := None;
            p_userAgent := None |} ev ;;
     let response := {| valid := success result; quick_error := None |} in
     let response :=
       if truthy_str (error result)
       then {| valid := valid response; quick_error := error result |}
       else response in
     Return response)
    (fun e =>
       Return {| valid := false;
                 quick_error := Some (message_or (lit "Unknown error") e) |}).

(** [ApiValidator.isRateLimited(error)] *)
Definition isRateLimited (e : thrown) : bool :=
  match e with
  | TokenValidationError _ type _ => TokenErrorType_eqb type RATE_LIMITED
  | _ => false
  end.

(** [error.details?.retryAfter] *)
Definition details_retryAfter (e : thrown) : option jsstring :=
  match e with
  | TokenValidationError _ _ (Some (DRateLimit _ retryAfter _)) => retryAfter
  | _ => None
  end.

(** [ApiValidator.getRetryDelay(error)] *)
Definition getRetryDelay (e : thrown) : jsnumber :=
  if isRateLimited e && truthy_str (details_retryAfter e) then
    parseInt (nullish (details_retryAfter e) [])
  else Num 60.

(* ===================================================================== *)
(** ** DiscordTokenChecker, remaining members *)
(* ===================================================================== *)

(** [DiscordTokenChecker.quickApiCheck(token, timeout = 5000)] *)
Definition quickApiCheck
  (token : jsval) (timeout : option Z) (ev : net_event)
  : outcome QuickResult :=
  quickTest token (Some (nullish timeout 5000)) ev.

(** The string conversion [`${error}`] of a thrown value, a platform
    operation. *)
Variable String_of : thrown -> jsstring.

Definition msg_file_not_found (path : jsstring) : jsstring :=
  lit "Token file not found at " ++ path.
Definition msg_file_empty : jsstring := lit "Token file is empty".
Definition msg_read_failed (e : thrown) : jsstring :=
  lit "Failed to read token file: " ++ String_of e.
Definition msg_cleanup_failed (e : thrown) : jsstring :=
  lit "Failed to clean up file: " ++ String_of e.
Definition msg_env_file_not_found (path : jsstring) : jsstring :=
  lit ".env file not found at " ++ path.
Definition msg_env_var_not_found (name : jsstring) : jsstring :=
  name ++ lit " not found in environment variables".

(** [result.warnings.push(w)] *)
Definition push_warning (r : TokenValidationResult) (w : jsstring)
  : TokenValidationResult :=
  {| isValid := isValid r; format := format r; api := api r;
     errors := errors r; warnings := warnings r ++ [w];
     metadata := metadata r |}.

(** The [try] block of [validateFromFile]; the second component tells
    whether [unlinkSync] removed the file. *)
Definition validateFromFile_try
  (config : TokenCheckerConfig) (cleanup : bool) (w : FileWorld)
  (ev : net_event) : outcome (TokenValidationResult * bool) :=
  content <- readFileSync w ;;
  let token := trim content in
  if len token =? 0 then
    Throw (TokenValidationError msg_file_empty TOKEN_NOT_FOUND None)
  else
    result <- validateToken config (JStr token) file both ev ;;
    if cleanup then
      match unlinkSync w with
      | Return _ => Return (result, true)
      | Throw cleanupError =>
          Return (push_warning result (msg_cleanup_failed cleanupError), false)
      end
    else Return (result, false).

(** [DiscordTokenChecker.validateFromFile(options)] *)
Definition validateFromFile
  (config : TokenCheckerConfig) (options : FileTokenOptions) (w : FileWorld)
  (ev : net_event) : FileRun :=
  let cleanup := nullish (cleanup options) false in
  if negb (existsSync w) then
    {| file_outcome :=
         Throw (TokenValidationError (msg_file_not_found (filePath options))
                                     FILE_NOT_FOUND None);
       file_removed := false |}
  else
    match validateFromFile_try config cleanup w ev with
    | Return (result, removed) =>
        {| file_outcome := Return result; file_removed := removed |}
    | Throw e =>
        {| file_outcome :=
             match e with
             | TokenValidationError _ _ _ => Throw e
             | _ =>
                 Throw (TokenValidationError (msg_read_failed e)
                          FILE_NOT_FOUND
                          (Some (DOriginal (message_or [] e))))
             end;
           file_removed := false |}
    end.

(** [DiscordTokenChecker.validateFromEnv(options)] *)
Definition validateFromEnv
  (config : TokenCheckerConfig) (options : EnvTokenOptions) (w : EnvWorld)
  (ev : net_event) : outcome TokenValidationResult :=
  let envPath := or_string (envPath options) (cwd_env w) in
  let tokenVar := or_string (tokenVar options) (lit "DISCORD_TOKEN") in
  if negb (env_existsSync w envPath) then
    Throw (TokenValidationError (msg_env_file_not_found envPath)
                                FILE_NOT_FOUND None)
  else
    match process_env w envPath tokenVar with
    | Some (c :: t) => validateToken config (JStr (c :: t)) env both ev
    | _ =>
        Throw (TokenValidationError (msg_env_var_not_found tokenVar)
                                    TOKEN_NOT_FOUND None)
    end.

(* ===================================================================== *)
(** ** Properties of the liveness prober *)
(* ===================================================================== *)

(** [parseUserInfo] fails in two cases: the payload is [null], or its
    [premium_type] cannot be converted to a primitive. *)
Lemma parseUserInfo_total (response : json) :
  response <> JsonNull ->
  comparison_throws (get response "premium_type") = false ->
  exists u, parseUserInfo response = Return u.
Proof.
  intros Hn Hc.
  destruct response; try (now destruct Hn);
    unfold parseUserInfo, js_gt_zero; rewrite Hc; eexists; reflexivity.
Qed.

Lemma parseUserInfo_throws (response : json) (e : thrown) :
  parseUserInfo response = Throw e ->
  response = JsonNull
  \/ comparison_throws (get response "premium_type") = true.
Proof.
  destruct response; try (left; reflexivity);
    unfold parseUserInfo, js_gt_zero;
    destruct (comparison_throws _); try discriminate; intros _; now right.
Qed.



(** [validateWithApi] catches everything: it always returns a response. *)
Lemma validateWithApi_returns
  (token : jsval) (config : PartialConfig) (ev : net_event) :
  exists r, validateWithApi token config ev = Return r.
Proof.
  unfold validateWithApi.
  set (finalConfig := Build_TokenCheckerConfig _ _ _ _ _).
  destruct (makeApiRequest token finalConfig ev) as [u | e]; simpl.
  - eexists; reflexivity.
  - destruct e; eexists; reflexivity.
Qed.

(** C6. Every response of [validateWithApi] is produced without throwing
    and satisfies: [success = true] implies that no error string is
    present, and [success = false] implies that no user profile is
    present. *)
Theorem validateWithApi_invariant
  (token : jsval) (config : PartialConfig) (ev : net_event) :
  exists r,
    validateWithApi token config ev = Return r
    /\ (success r = true -> error r = None)
    /\ (success r = false -> userInfo r = None).
Proof.
  unfold validateWithApi.
  set (finalConfig := Build_TokenCheckerConfig _ _ _ _ _).
  destruct (makeApiRequest token finalConfig ev) as [u | e]; simpl.
  - destruct (nullish (p_includeUserInfo config) true); simpl;
      eexists; (split; [reflexivity | split; [reflexivity | discriminate]]).
  - destruct e; simpl;
      eexists; (split; [reflexivity | split; [discriminate | reflexivity]]).
Qed.

(** C7 (as amended). When the response body parses as JSON, status 401 is
    rejected as [UNAUTHORIZED] with the message "Token is invalid or
    expired", status 403 as [API_ERROR] with the valid-but-lacks-permissions
    message, status 429 as [RATE_LIMITED] with the [retry-after] header
    value in the error details, and any status other than 200, 401, 403 and
    429 as [API_ERROR] carrying that status code.  When the body does not
    parse, the rejection is [API_ERROR] "Failed to parse API response"
    whatever the status. *)
Theorem makeApiRequest_classification
  (token : jsval) (config : TokenCheckerConfig) (res : IncomingMessage) :
  let code := res_statusCode res in
  let settled := makeApiRequest token config (ResponseEnd res) in
  (forall response, JSON_parse_data res = Parsed response ->
     (code = 401 ->
      settled = reject (TokenValidationError msg_unauthorized UNAUTHORIZED
                          (Some (DStatus 401 response))))
     /\ (code = 403 ->
         settled = reject (TokenValidationError msg_forbidden API_ERROR
                             (Some (DStatus 403 response))))
     /\ (code = 429 ->
         settled = reject (TokenValidationError
                             (msg_rate_limited (res_retry_after res))
                             RATE_LIMITED
                             (Some (DRateLimit 429 (res_retry_after res)
                                               response))))
     /\ (code <> 200 -> code <> 401 -> code <> 403 -> code <> 429 ->
         settled = reject (TokenValidationError (msg_status code) API_ERROR
                             (Some (DStatus code response)))))
  /\ (forall m, JSON_parse_data res = SyntaxError m ->
        settled = reject (TokenValidationError msg_parse_failed API_ERROR
                            (Some (DParse m (data res))))).
Proof.
  simpl. unfold on_end. split.
  - intros response Hp. rewrite Hp. simpl.
    repeat split.
    + intros ->. reflexivity.
    + intros ->. reflexivity.
    + intros ->. reflexivity.
    + intros H200 H401 H403 H429.
      destruct (Z.eqb_spec (res_statusCode res) 200); [contradiction |].
      destruct (Z.eqb_spec (res_statusCode res) 401); [contradiction |].
      destruct (Z.eqb_spec (res_statusCode res) 429); [contradiction |].
      destruct (Z.eqb_spec (res_statusCode res) 403); [contradiction |].
      reflexivity.
  - intros m Hp. rewrite Hp. reflexivity.
Qed.

(** What a caller of [validateWithApi] sees of a rate-limited response
    whose body parses: the status code and the [rateLimited] flag; the
    [retry-after] value reaches it inside the message only. *)
Lemma validateWithApi_rate_limited
  (token : jsval) (config : PartialConfig) (res : IncomingMessage)
  (response : json) :
  res_statusCode res = 429 ->
  JSON_parse_data res = Parsed response ->
  validateWithApi token config (ResponseEnd res)
  = Return {| success := false;
              userInfo := None;
              error := Some (msg_rate_limited (res_retry_after res));
              statusCode := Some 429;
              rateLimited := Some true |}.
Proof.
  intros Hc Hp. unfold validateWithApi, makeApiRequest, on_end.
  rewrite Hp, Hc. reflexivity.
Qed.


(** The token plays no part in how the request settles: the outcome is a
    function of the event and the configuration. *)
Lemma validateWithApi_token_irrelevant
  (t1 t2 : jsval) (config : PartialConfig) (ev : net_event) :
  validateWithApi t1 config ev = validateWithApi t2 config ev.
Proof. reflexivity. Qed.

(* ===================================================================== *)
(** ** Properties of the orchestrator *)
(* ===================================================================== *)


(** C8. With method [api], every token string, however malformed, gets a
    result whose five format flags are all true.  Its validity is the
    success flag of the liveness outcome when the API step is enabled (and
    [true], with no liveness outcome, when it is disabled); in particular
    it is the same for any two token strings. *)
Theorem validateToken_api_only
  (config : TokenCheckerConfig) (s : jsstring) (source : TokenSource)
  (ev : net_event) :
  exists r,
    validateToken config (JStr s) source api_only ev = Return r
    /\ format r = all_flags_true
    /\ (checkApi config = true ->
        exists apiResult,
          validateWithApi (JStr s) (as_partial config) ev = Return apiResult
          /\ isValid r = success apiResult
          /\ option_map isActive (api r) = Some (success apiResult))
    /\ (checkApi config = false -> isValid r = true /\ api r = None)
    /\ (forall s' r',
          validateToken config (JStr s') source api_only ev = Return r' ->
          isValid r' = isValid r).
Proof.
  destruct (validateWithApi_returns (JStr s) (as_partial config) ev)
    as (a & Ha).
  unfold validateToken. simpl.
  destruct (checkApi config) eqn:Hcheck.
  - rewrite Ha. eexists. split; [reflexivity |].
    unfold api_step.
    split; [destruct (success a); reflexivity |].
    split.
    + intros _. exists a. split; [reflexivity |].
      destruct (success a); simpl; split; reflexivity.
    + split; [discriminate |].
      intros s' r'.
      rewrite (validateWithApi_token_irrelevant (JStr s') (JStr s)), Ha.
      intros [= <-]. destruct (success a); reflexivity.
  - eexists. split; [reflexivity |].
    split; [reflexivity |].
    split; [discriminate |].
    split; [intros _; split; reflexivity |].
    intros s' r' [= <-]. reflexivity.
Qed.

End Pipeline.

(* ===================================================================== *)
(** ** Properties of the format inspector *)
(* ===================================================================== *)

Lemma push_if_when (c : bool) (m : jsstring) (arr : list jsstring) :
  push_if c m arr = arr ++ when c m.
Proof. destruct c; simpl; [reflexivity | now rewrite app_nil_r]. Qed.

Lemma len_nil_iff (s : jsstring) : (len s =? 0) = true <-> s = [].
Proof.
  unfold len. destruct s; simpl; split; intros H; try reflexivity;
    try discriminate.
Qed.

Lemma count_zero_iff {A} (l : list A) : (count l =? 0) = true <-> l = [].
Proof.
  unfold count. destruct l; simpl; split; intros H; try reflexivity;
    try discriminate.
Qed.

(** The structural checks leave the error array alone and append to the
    warning array, in the order of the source. *)
Lemma validateTokenStructure_three
  (userPart timestampPart signaturePart : jsstring)
  (errs warns : list jsstring) :
  validateTokenStructure [userPart; timestampPart; signaturePart] errs warns
  = (errs,
     warns
     ++ when (len userPart <? 10) warn_user_short
     ++ when (len timestampPart <? 6) warn_timestamp_short
     ++ when (len signaturePart <? 20) warn_signature_short
     ++ when (negb (base64Regex_test userPart)) warn_user_chars
     ++ when (negb (base64Regex_test timestampPart)) warn_timestamp_chars
     ++ when (negb (base64Regex_test signaturePart)) warn_signature_chars).
Proof.
  unfold validateTokenStructure.
  rewrite !push_if_when, <- !app_assoc. reflexivity.
Qed.

Lemma validateTokenStructure_errors
  (ps : list jsstring) (errs warns : list jsstring) :
  fst (validateTokenStructure ps errs warns) = errs.
Proof.
  destruct ps as [| a [| b [| c [| d ps]]]]; reflexivity.
Qed.

(** The warnings the structural checks append. *)
Lemma validateTokenStructure_warnings
  (ps : list jsstring) (errs warns : list jsstring) :
  snd (validateTokenStructure ps errs warns)
  = warns ++ snd (validateTokenStructure ps [] []).
Proof.
  destruct ps as [| a [| b [| c [| d ps]]]];
    try (simpl; now rewrite app_nil_r).
  rewrite !validateTokenStructure_three. reflexivity.
Qed.

Section FormatResult.

Variable t : jsstring.

Let r := validateFormat_trimmed t.
Let L := len t.

(** The hard errors of a verdict, in the order the checks run. *)
Lemma validateFormat_trimmed_errors :
  errors r
  = when (includes_str t placeholders) msg_placeholder
    ++ when (negb (count (split DOT t) =? 3)) (msg_parts (count (split DOT t)))
    ++ when (L <? 30) (msg_too_short L)
    ++ when (includes_char SPACE t) msg_spaces
    ++ when (negb (hasNoQuotes (format r))) msg_quotes
    ++ when (startsWith (lit "Bot ") t) msg_bot.
Proof.
  subst r L. unfold validateFormat_trimmed.
  rewrite !push_if_when.
  destruct (len t >=? 50) eqn:H50; destruct (len t <? 30) eqn:H30;
    try lia; cbn [negb];
    match goal with
    | |- context [validateTokenStructure ?p ?e ?w] =>
        pose proof (validateTokenStructure_errors p e w) as He;
        destruct (validateTokenStructure p e w) as [e' w'] eqn:Hs
    end;
    cbn [errors fst format hasNoQuotes] in *; subst e';
    rewrite ?push_if_when, ?negb_involutive, <- ?app_assoc; cbn [app when];
    rewrite ?app_nil_r; reflexivity.
Qed.

(** The warnings of a verdict. *)
Lemma validateFormat_trimmed_warnings :
  warnings r
  = when ((L <? 50) && negb (L <? 30)) (msg_might_be_short L)
    ++ snd (validateTokenStructure (split DOT t) [] []).
Proof.
  subst r L. unfold validateFormat_trimmed.
  destruct (len t >=? 50) eqn:H50; destruct (len t <? 30) eqn:H30;
    destruct (len t <? 50) eqn:H50'; try lia; cbn [negb andb];
    match goal with
    | |- context [validateTokenStructure ?p ?e ?w] =>
        pose proof (validateTokenStructure_warnings p e w) as Hw;
        destruct (validateTokenStructure p e w) as [e' w'] eqn:Hs
    end;
    cbn [warnings snd] in *; subst w'; reflexivity.
Qed.

Lemma validateFormat_trimmed_isValid :
  isValid r = (count (errors r) =? 0).
Proof.
  subst r. unfold validateFormat_trimmed.
  destruct (len t >=? 50); destruct (len t <? 30); cbn [negb];
    match goal with
    | |- context [validateTokenStructure ?p ?e ?w] =>
        destruct (validateTokenStructure p e w) as [e' w']
    end; reflexivity.
Qed.

Lemma validateFormat_trimmed_flags :
  format r
  = {| hasCorrectParts := count (split DOT t) =? 3;
       hasCorrectLength := L >=? 50;
       hasNoSpaces := negb (includes_char SPACE t);
       hasNoQuotes :=
         negb (startsWith [DQUOTE] t) && negb (endsWith [DQUOTE] t)
         && negb (startsWith [SQUOTE] t) && negb (endsWith [SQUOTE] t);
       isNotBotToken := negb (startsWith (lit "Bot ") t) |}.
Proof.
  subst r L. unfold validateFormat_trimmed.
  destruct (len t >=? 50); destruct (len t <? 30); cbn [negb];
    match goal with
    | |- context [validateTokenStructure ?p ?e ?w] =>
        destruct (validateTokenStructure p e w) as [e' w']
    end; reflexivity.
Qed.

(** Validity in terms of the hard checks alone. *)
Lemma validateFormat_trimmed_valid_checks :
  isValid r
  = negb (includes_str t placeholders)
    && hasCorrectParts (format r)
    && (30 <=? L)
    && hasNoSpaces (format r)
    && hasNoQuotes (format r)
    && isNotBotToken (format r).
Proof.
  rewrite validateFormat_trimmed_isValid, validateFormat_trimmed_errors.
  rewrite validateFormat_trimmed_flags.
  cbn [hasCorrectParts hasNoSpaces hasNoQuotes isNotBotToken].
  destruct (includes_str t placeholders); [reflexivity |].
  destruct (count (split DOT t) =? 3); [| reflexivity].
  destruct (L <? 30) eqn:H30;
    [replace (30 <=? L) with false by lia; reflexivity |].
  replace (30 <=? L) with true by lia.
  destruct (includes_char SPACE t); [reflexivity |].
  set (q := negb (startsWith [DQUOTE] t) && _ && _ && _).
  destruct q; [| reflexivity].
  destruct (startsWith (lit "Bot ") t); reflexivity.
Qed.

End FormatResult.

Lemma validateFormat_returns (s : jsstring) :
  trim s <> [] ->
  validateFormat (JStr s) = Return (validateFormat_trimmed (trim s)).
Proof.
  intros H. destruct s as [| c s']; [now destruct H |].
  unfold validateFormat.
  destruct (len (trim (c :: s')) =? 0) eqn:E; [| reflexivity].
  apply len_nil_iff in E. contradiction.
Qed.

Lemma validateFormat_blank (s : jsstring) :
  s <> [] -> trim s = [] ->
  validateFormat (JStr s)
  = Throw (TokenValidationError (lit "Token is empty") TOKEN_NOT_FOUND None).
Proof.
  intros Hs Ht. destruct s as [| c s']; [now destruct Hs |].
  unfold validateFormat. rewrite Ht. reflexivity.
Qed.

(** C2. For every non-empty token string, format validation either
    rejects it as empty (when only white space is left after trimming) or
    returns a verdict whose [isValid] is true exactly when its hard-error
    list is empty.  Validity is a function of the hard checks alone, so the
    warning list has no influence on it. *)
Theorem validateFormat_valid_iff_no_errors (s : jsstring) :
  s <> [] ->
  (trim s = []
   /\ validateFormat (JStr s)
      = Throw (TokenValidationError (lit "Token is empty")
                                    TOKEN_NOT_FOUND None))
  \/ (exists r,
        validateFormat (JStr s) = Return r
        /\ (isValid r = true <-> errors r = [])
        /\ isValid r
           = negb (includes_str (trim s) placeholders)
             && hasCorrectParts (format r)
             && (30 <=? len (trim s))
             && hasNoSpaces (format r)
             && hasNoQuotes (format r)
             && isNotBotToken (format r)).
Proof.
  intros Hs.
  destruct (trim s) as [| c t'] eqn:Ht.
  - left. split; [reflexivity | now apply validateFormat_blank].
  - right. exists (validateFormat_trimmed (trim s)).
    split; [apply validateFormat_returns; rewrite Ht; discriminate |].
    rewrite <- Ht. split.
    + rewrite validateFormat_trimmed_isValid. apply count_zero_iff.
    + apply validateFormat_trimmed_valid_checks.
Qed.

Lemma filter_when (f : jsstring -> bool) (c : bool) (m : jsstring) :
  filter f (when c m) = when (c && f m) m.
Proof. destruct c; simpl; [destruct (f m) |]; reflexivity. Qed.

Lemma when_false_r (c : bool) (m : jsstring) : when (c && false) m = [].
Proof. now rewrite andb_false_r. Qed.

Lemma when_true_r (c : bool) (m : jsstring) : when (c && true) m = when c m.
Proof. now rewrite andb_true_r. Qed.

Lemma is_length_message_parts (n : Z) :
  is_length_message (msg_parts n) = false.
Proof. reflexivity. Qed.

Lemma is_length_message_too_short (n : Z) :
  is_length_message (msg_too_short n) = true.
Proof. reflexivity. Qed.

Lemma is_length_message_might_be_short (n : Z) :
  is_length_message (msg_might_be_short n) = true.
Proof. reflexivity. Qed.

(** The structural warnings are not messages of the length rule. *)
Lemma structure_warnings_not_length (ps : list jsstring) :
  filter is_length_message (snd (validateTokenStructure ps [] [])) = [].
Proof.
  destruct ps as [| a [| b [| c [| d ps]]]]; try reflexivity.
  rewrite validateTokenStructure_three. cbn [snd app].
  rewrite !filter_app, !filter_when.
  change (is_length_message warn_user_short) with false.
  change (is_length_message warn_timestamp_short) with false.
  change (is_length_message warn_signature_short) with false.
  change (is_length_message warn_user_chars) with false.
  change (is_length_message warn_timestamp_chars) with false.
  change (is_length_message warn_signature_chars) with false.
  now rewrite !when_false_r.
Qed.

Lemma length_messages_of_errors (t : jsstring) :
  filter is_length_message (errors (validateFormat_trimmed t))
  = when (len t <? 30) (msg_too_short (len t)).
Proof.
  rewrite validateFormat_trimmed_errors.
  rewrite !filter_app, !filter_when.
  rewrite is_length_message_parts, is_length_message_too_short.
  change (is_length_message msg_placeholder) with false.
  change (is_length_message msg_spaces) with false.
  change (is_length_message msg_quotes) with false.
  change (is_length_message msg_bot) with false.
  rewrite !when_false_r, when_true_r. cbn [app]. now rewrite app_nil_r.
Qed.

Lemma length_messages_of_warnings (t : jsstring) :
  filter is_length_message (warnings (validateFormat_trimmed t))
  = when ((len t <? 50) && negb (len t <? 30)) (msg_might_be_short (len t)).
Proof.
  rewrite validateFormat_trimmed_warnings.
  rewrite filter_app, filter_when, structure_warnings_not_length.
  rewrite is_length_message_might_be_short, when_true_r.
  now rewrite app_nil_r.
Qed.

(** C3. The graded length rule on the trimmed token, of length [L]:
    [hasCorrectLength] is false exactly when [L < 50]; below 30 the hard
    "too short" error is the one length message and the verdict is invalid;
    from 30 to 49 the one length message is a warning and validity is
    decided by the other checks; from 50 on there is no length message in
    either list. *)
Theorem validateFormat_length_rule (s : jsstring) :
  trim s <> [] ->
  exists r,
    validateFormat (JStr s) = Return r
    /\ (hasCorrectLength (format r) = false <-> len (trim s) < 50)
    /\ (len (trim s) < 30 ->
        filter is_length_message (errors r) = [msg_too_short (len (trim s))]
        /\ filter is_length_message (warnings r) = []
        /\ In (msg_too_short (len (trim s))) (errors r)
        /\ isValid r = false)
    /\ (30 <= len (trim s) < 50 ->
        filter is_length_message (errors r) = []
        /\ filter is_length_message (warnings r)
           = [msg_might_be_short (len (trim s))]
        /\ In (msg_might_be_short (len (trim s))) (warnings r))
    /\ (50 <= len (trim s) ->
        filter is_length_message (errors r) = []
        /\ filter is_length_message (warnings r) = [])
    /\ (30 <= len (trim s) ->
        isValid r
        = negb (includes_str (trim s) placeholders)
          && hasCorrectParts (format r)
          && hasNoSpaces (format r)
          && hasNoQuotes (format r)
          && isNotBotToken (format r)).
Proof.
  intros Ht. exists (validateFormat_trimmed (trim s)).
  split; [now apply validateFormat_returns |].
  set (t := trim s).
  rewrite length_messages_of_errors, length_messages_of_warnings.
  rewrite validateFormat_trimmed_valid_checks, validateFormat_trimmed_flags.
  cbn [hasCorrectLength hasCorrectParts hasNoSpaces hasNoQuotes
       isNotBotToken].
  split; [| split; [| split; [| split]]].
  - split; intros H; lia.
  - intros H.
    replace (len t <? 30) with true by lia.
    replace (30 <=? len t) with false by lia.
    replace (len t <? 50) with true by lia.
    rewrite !andb_false_r. cbn [when negb andb].
    repeat split.
    apply (proj1 (filter_In is_length_message _ _)).
    rewrite length_messages_of_errors.
    replace (len t <? 30) with true by lia. now left.
  - intros H.
    replace (len t <? 30) with false by lia.
    replace (len t <? 50) with true by lia.
    cbn [when negb andb]. repeat split.
    apply (proj1 (filter_In is_length_message _ _)).
    rewrite length_messages_of_warnings.
    replace (len t <? 30) with false by lia.
    replace (len t <? 50) with true by lia. now left.
  - intros H.
    replace (len t <? 30) with false by lia.
    replace (len t <? 50) with false by lia.
    split; reflexivity.
  - intros H. replace (30 <=? len t) with true by lia.
    now rewrite andb_true_r.
Qed.

Lemma base64Regex_test_spec (x : jsstring) :
  base64Regex_test x = true
  <-> x <> [] /\ Forall (fun c => base64_class c = true) x.
Proof.
  destruct x as [| c x'].
  - simpl. split; [discriminate | intros [H _]; now destruct H].
  - unfold base64Regex_test. rewrite forallb_forall, Forall_forall.
    split; [intros H; split; [discriminate | exact H] | intros [_ H]; exact H].
Qed.

(** C9 (as amended). For a token whose trimmed text has exactly three
    dot-separated segments, the secondary structural checks only append
    warnings: one for each segment below its minimum length (10, 6, 20) and
    one for each segment that is empty or has a character outside
    [A-Za-z0-9+/=_-], the standard and the URL-safe base64 alphabets with
    the padding character.  They leave the error list untouched, so the
    hard-error list and the validity of the verdict are those of the
    primary checks. *)
Theorem structure_checks_warn_only
  (s userPart timestampPart signaturePart : jsstring) :
  split DOT (trim s) = [userPart; timestampPart; signaturePart] ->
  let structure_warnings :=
    when (len userPart <? 10) warn_user_short
    ++ when (len timestampPart <? 6) warn_timestamp_short
    ++ when (len signaturePart <? 20) warn_signature_short
    ++ when (negb (base64Regex_test userPart)) warn_user_chars
    ++ when (negb (base64Regex_test timestampPart)) warn_timestamp_chars
    ++ when (negb (base64Regex_test signaturePart)) warn_signature_chars in
  (forall errs warns,
      validateTokenStructure [userPart; timestampPart; signaturePart]
                             errs warns
      = (errs, warns ++ structure_warnings))
  /\ exists r,
      validateFormat (JStr s) = Return r
      /\ warnings r
         = when ((len (trim s) <? 50) && negb (len (trim s) <? 30))
                (msg_might_be_short (len (trim s)))
           ++ structure_warnings
      /\ errors r
         = when (includes_str (trim s) placeholders) msg_placeholder
           ++ when (len (trim s) <? 30) (msg_too_short (len (trim s)))
           ++ when (negb (hasNoSpaces (format r))) msg_spaces
           ++ when (negb (hasNoQuotes (format r))) msg_quotes
           ++ when (negb (isNotBotToken (format r))) msg_bot
      /\ isValid r
         = negb (includes_str (trim s) placeholders)
           && (30 <=? len (trim s))
           && hasNoSpaces (format r)
           && hasNoQuotes (format r)
           && isNotBotToken (format r).
Proof.
  intros Hsplit structure_warnings.
  split; [intros; apply validateTokenStructure_three |].
  assert (Ht : trim s <> []) by (intros E; rewrite E in Hsplit; discriminate).
  exists (validateFormat_trimmed (trim s)).
  split; [now apply validateFormat_returns |].
  rewrite validateFormat_trimmed_warnings, validateFormat_trimmed_errors.
  rewrite validateFormat_trimmed_valid_checks, validateFormat_trimmed_flags.
  cbn [hasCorrectParts hasNoSpaces hasNoQuotes isNotBotToken].
  rewrite Hsplit, validateTokenStructure_three, !negb_involutive.
  change (count [userPart; timestampPart; signaturePart] =? 3) with true.
  cbn [negb when snd app]. rewrite andb_true_r.
  repeat split.
Qed.

(** C10. [quickFormatCheck] does not throw on an absent token: for [null],
    [undefined], the empty string and a string that is empty after
    trimming, the format inspector throws [TOKEN_NOT_FOUND] and
    [quickFormatCheck] returns [false]. *)
Theorem quickFormatCheck_absent_token (token : jsval) :
  token = JNull \/ token = JUndefined
  \/ (exists s, token = JStr s /\ trim s = []) ->
  (exists m,
      validateFormat token
      = Throw (TokenValidationError m TOKEN_NOT_FOUND None))
  /\ quickFormatCheck token = Return false.
Proof.
  intros [-> | [-> | (s & -> & Ht)]].
  - split; [eexists |]; reflexivity.
  - split; [eexists |]; reflexivity.
  - unfold quickFormatCheck.
    destruct s as [| c s'].
    + split; [eexists |]; reflexivity.
    + rewrite validateFormat_blank by (trivial; discriminate).
      split; [eexists |]; reflexivity.
Qed.

(* ===================================================================== *)
(** ** Properties of the extraction utilities *)
(* ===================================================================== *)

(** C4. The two extraction utilities never throw, whatever they are given:
    they always return, and they return [null] when the dot-split does not
    have exactly 3 segments, when the decoded first segment is not a
    non-empty all-digit string (user ID), when the decoded second segment
    does not parse as a number (timestamp), and when the argument is not a
    string at all. *)
Theorem extraction_never_throws (token : jsval) :
  (exists u, extractUserId token = Return u)
  /\ (exists d, extractTimestamp token = Return d)
  /\ (forall s, token = JStr s -> count (split DOT s) <> 3 ->
        extractUserId token = Return None
        /\ extractTimestamp token = Return None)
  /\ (forall s, token = JStr s ->
        all_digits_test (base64_to_utf8 (nth 0 (split DOT s) [])) = false ->
        extractUserId token = Return None)
  /\ (forall s, token = JStr s ->
        parseInt10 (base64_to_utf8 (nth 1 (split DOT s) [])) = None ->
        extractTimestamp token = Return None)
  /\ (token = JNull \/ token = JUndefined ->
      extractUserId token = Return None
      /\ extractTimestamp token = Return None).
Proof.
  unfold extractUserId, extractTimestamp.
  split; [| split; [| split; [| split; [| split]]]].
  - destruct token as [| | s]; simpl; try (eexists; reflexivity).
    destruct (count (split DOT s) =? 3); simpl; [| eexists; reflexivity].
    destruct (all_digits_test _); eexists; reflexivity.
  - destruct token as [| | s]; simpl; try (eexists; reflexivity).
    destruct (count (split DOT s) =? 3); simpl; [| eexists; reflexivity].
    destruct (parseInt10 _); eexists; reflexivity.
  - intros s -> Hn. simpl.
    destruct (Z.eqb_spec (count (split DOT s)) 3); [contradiction |].
    split; reflexivity.
  - intros s -> Hd. simpl.
    destruct (count (split DOT s) =? 3); simpl; [| reflexivity].
    now rewrite Hd.
  - intros s -> Hp. simpl.
    destruct (count (split DOT s) =? 3); simpl; [| reflexivity].
    now rewrite Hp.
  - intros [-> | ->]; split; reflexivity.
Qed.

(** *** Base64 and UTF-8 round trips *)

Lemma list_ind3 {A} (P : list A -> Prop) :
  P [] -> (forall a, P [a]) -> (forall a b, P [a; b]) ->
  (forall a b c r, P r -> P (a :: b :: c :: r)) ->
  forall l, P l.
Proof.
  intros H0 H1 H2 H3.
  fix F 1. intros [| a [| b [| c r]]].
  - exact H0.
  - apply H1.
  - apply H2.
  - apply H3, F.
Qed.

Lemma base64_char_inv (v : N) :
  (v < 64)%N ->
  unbase64 (low_byte (base64_char v)) = Some v
  /\ N.eqb (low_byte (base64_char v)) EQUALS = false.
Proof.
  intros Hv.
  assert (Hall :
    forallb (fun v => match unbase64 (low_byte (base64_char v)) with
                      | Some w => N.eqb w v
                      | None => false
                      end
                      && negb (N.eqb (low_byte (base64_char v)) EQUALS))
            (map N.of_nat (seq 0 64)) = true) by (vm_compute; reflexivity).
  rewrite forallb_forall in Hall.
  assert (Hin : In v (map N.of_nat (seq 0 64))).
  { apply in_map_iff. exists (N.to_nat v).
    split; [apply N2Nat.id | apply in_seq; lia]. }
  specialize (Hall v Hin). apply andb_true_iff in Hall as [Hu He].
  split.
  - destruct (unbase64 (low_byte (base64_char v))); [| discriminate].
    apply N.eqb_eq in Hu. now subst.
  - now apply negb_true_iff.
Qed.

Lemma sextets_cons (v : N) (rest : jsstring) :
  (v < 64)%N -> sextets (base64_char v :: rest) = v :: sextets rest.
Proof.
  intros Hv. destruct (base64_char_inv v Hv) as [Hu He].
  cbn [sextets]. cbv zeta. now rewrite He, Hu.
Qed.

Ltac euclid := zify; Z.to_euclidean_division_equations; lia.

(** Decoding inverts encoding on every byte sequence. *)
Lemma base64_round_trip (bs : list byte) :
  Forall (fun b => (b < 256)%N) bs ->
  Buffer_from_base64 (base64_encode bs) = bs.
Proof.
  unfold Buffer_from_base64.
  induction bs as [| a | a b | a b c r IH] using list_ind3; intros Hb.
  - reflexivity.
  - inversion_clear Hb as [| ? ? Ha _].
    cbn [base64_encode].
    rewrite !sextets_cons by euclid.
    cbn. f_equal. euclid.
  - inversion_clear Hb as [| ? ? Ha Hb']. inversion_clear Hb' as [| ? ? Hb _].
    cbn [base64_encode].
    rewrite !sextets_cons by euclid.
    cbn. f_equal; [| f_equal]; euclid.
  - inversion_clear Hb as [| ? ? Ha Hb']. inversion_clear Hb' as [| ? ? Hb Hc'].
    inversion_clear Hc' as [| ? ? Hc Hr].
    cbn [base64_encode].
    rewrite !sextets_cons by euclid.
    cbn [bytes_of_sextets]. rewrite (IH Hr).
    f_equal; [| f_equal; [| f_equal]]; euclid.
Qed.

Lemma utf8_decode_ascii (bs : list byte) :
  is_ascii bs -> utf8_decode bs = bs.
Proof.
  induction 1 as [| b r Hb _ IH]; [reflexivity |].
  cbn [utf8_decode].
  destruct (N.leb_spec b 127); [now rewrite IH | lia].
Qed.

Lemma is_ascii_bytes (s : jsstring) :
  is_ascii s -> Forall (fun b => (b < 256)%N) s.
Proof. apply Forall_impl. intros; lia. Qed.

Lemma base64_to_utf8_of_ascii (s : jsstring) :
  is_ascii s -> base64_to_utf8 (base64_of_ascii s) = s.
Proof.
  intros H. unfold base64_to_utf8, base64_of_ascii.
  rewrite base64_round_trip by now apply is_ascii_bytes.
  now apply utf8_decode_ascii.
Qed.

(** *** Splitting a dot-joined token *)

Lemma split_no_sep (sep : code_unit) (a : jsstring) :
  ~ In sep a -> split sep a = [a].
Proof.
  induction a as [| c a IH]; intros Hn; [reflexivity |].
  simpl. destruct (N.eqb_spec c sep) as [-> | _].
  - exfalso. apply Hn. now left.
  - rewrite IH; [reflexivity |]. intros H. apply Hn. now right.
Qed.

Lemma split_app_sep (sep : code_unit) (a r : jsstring) :
  ~ In sep a -> split sep (a ++ sep :: r) = a :: split sep r.
Proof.
  induction a as [| c a IH]; intros Hn.
  - simpl. now rewrite N.eqb_refl.
  - simpl. destruct (N.eqb_spec c sep) as [-> | _].
    + exfalso. apply Hn. now left.
    + rewrite IH; [reflexivity |]. intros H. apply Hn. now right.
Qed.

Lemma split_join3 (seg1 seg2 seg3 : jsstring) :
  ~ In DOT seg1 -> ~ In DOT seg2 -> ~ In DOT seg3 ->
  split DOT (join3 seg1 seg2 seg3) = [seg1; seg2; seg3].
Proof.
  intros H1 H2 H3. unfold join3.
  now rewrite !split_app_sep, split_no_sep.
Qed.

Lemma base64_char_not_dot (v : N) : base64_char v <> DOT.
Proof.
  unfold base64_char, DOT.
  destruct (N.ltb_spec v 26); [lia |].
  destruct (N.ltb_spec v 52); [lia |].
  destruct (N.ltb_spec v 62); [lia |].
  destruct (v =? 62)%N; lia.
Qed.

Lemma base64_encode_no_dot (bs : list byte) : ~ In DOT (base64_encode bs).
Proof.
  induction bs as [| a | a b | a b c r IH] using list_ind3;
    cbn [base64_encode In]; intros H;
    repeat match goal with
           | H : _ \/ _ |- _ => destruct H as [H | H]
           | H : base64_char _ = DOT |- _ => now apply base64_char_not_dot in H
           | H : EQUALS = DOT |- _ => discriminate H
           end; auto.
Qed.

(** *** Decimal numerals and [parseInt] *)

Lemma digits_value_snoc (ds : jsstring) (c : code_unit) :
  digits_value (ds ++ [c]) = digits_value ds * 10 + (Z.of_N c - 48).
Proof. unfold digits_value. now rewrite fold_left_app. Qed.

Lemma digits_fuel_spec (f : nat) :
  forall n, 0 <= n < 2 ^ Z.of_nat (S f) ->
    digits_fuel (S f) n <> []
    /\ forallb is_digit (digits_fuel (S f) n) = true
    /\ digits_value (digits_fuel (S f) n) = n.
Proof.
  induction f as [| f IH]; intros n Hn.
  - change (2 ^ Z.of_nat 1) with 2 in Hn.
    assert (n = 0 \/ n = 1) as [-> | ->] by lia;
      (split; [discriminate | split; reflexivity]).
  - remember (S f) as f' eqn:Ef. cbn [digits_fuel].
    destruct (Z.ltb_spec n 10) as [Hlt | Hge].
    + split; [discriminate |]. split.
      * cbn [forallb]. rewrite andb_true_r. unfold is_digit. lia.
      * unfold digits_value. cbn [fold_left]. lia.
    + assert (Hq : 0 <= n / 10 < 2 ^ Z.of_nat f').
      { rewrite Nat2Z.inj_succ, Z.pow_succ_r in Hn by lia.
        split; [apply Z.div_pos; lia |].
        apply Z.div_lt_upper_bound; lia. }
      subst f'. destruct (IH _ Hq) as (_ & Hd & Hv).
      split; [now destruct (digits_fuel (S f) (n / 10)) |]. split.
      * rewrite forallb_app, Hd. cbn [forallb andb].
        rewrite andb_true_r. unfold is_digit. euclid.
      * rewrite digits_value_snoc, Hv. euclid.
Qed.

Lemma digits_spec (n : Z) :
  0 <= n ->
  digits n <> []
  /\ forallb is_digit (digits n) = true
  /\ digits_value (digits n) = n.
Proof.
  intros Hn. unfold digits. apply digits_fuel_spec.
  split; [exact Hn |].
  rewrite Nat2Z.inj_succ, Z2Nat.id by apply Z.log2_nonneg.
  destruct (Z.eq_dec n 0) as [-> | Hz]; [reflexivity |].
  apply Z.log2_spec. lia.
Qed.

Lemma digit_prefix_all (ds : jsstring) :
  forallb is_digit ds = true -> digit_prefix ds = ds.
Proof.
  induction ds as [| c ds IH]; [reflexivity |].
  cbn [forallb digit_prefix]. intros H.
  apply andb_true_iff in H as [Hc Hd]. now rewrite Hc, IH.
Qed.

Lemma is_digit_not_ws (c : code_unit) : is_digit c = true -> is_ws c = false.
Proof. unfold is_digit, is_ws. lia. Qed.

(** [parseInt] reads back the decimal numeral of any integer. *)
Lemma parseInt10_decimal (n : Z) : parseInt10 (decimal n) = Some n.
Proof.
  unfold decimal.
  destruct (Z.ltb_spec n 0) as [Hneg | Hpos].
  - destruct (digits_spec (- n)) as (Hne & Hd & Hv); [lia |].
    unfold parseInt10. cbn [trim_start].
    change (is_ws MINUS) with false. cbn iota.
    rewrite N.eqb_refl, digit_prefix_all by exact Hd.
    destruct (digits (- n)) eqn:E; [now destruct Hne |].
    rewrite Hv. f_equal. lia.
  - destruct (digits_spec n) as (Hne & Hd & Hv); [lia |].
    unfold parseInt10.
    destruct (digits n) as [| c ds] eqn:E; [now destruct Hne |].
    cbn [forallb] in Hd. apply andb_true_iff in Hd as [Hc Hds].
    cbn [trim_start]. rewrite (is_digit_not_ws c Hc).
    assert (N.eqb c MINUS = false /\ N.eqb c PLUS = false) as [-> ->]
      by (unfold is_digit, MINUS, PLUS in *; lia).
    cbn [digit_prefix]. rewrite Hc, digit_prefix_all by exact Hds.
    rewrite Hv. f_equal. lia.
Qed.

Lemma is_ascii_decimal (n : Z) : is_ascii (decimal n).
Proof.
  assert (Hdig : forall m, 0 <= m -> is_ascii (digits m)).
  { intros m Hm. destruct (digits_spec m Hm) as (_ & Hd & _).
    rewrite forallb_forall in Hd. apply Forall_forall. intros c Hc.
    specialize (Hd c Hc). unfold is_digit in Hd. lia. }
  unfold decimal. destruct (Z.ltb_spec n 0).
  - constructor; [unfold MINUS; lia | apply Hdig; lia].
  - apply Hdig; lia.
Qed.

(** C5. A token built by joining with dots the base64 encoding of
    "123456789012345678", the base64 encoding of the decimal numeral of an
    epoch-seconds integer a [Date] can hold, and any dot-free third
    segment: [extractUserId] returns exactly that digit string and
    [extractTimestamp] returns the date whose time value is the epoch
    times 1000 milliseconds. *)
Theorem extraction_round_trip (epoch : Z) (signaturePart : jsstring) :
  Z.abs epoch <= MAX_EPOCH_SECONDS ->
  ~ In DOT signaturePart ->
  let token :=
    JStr (join3 (base64_of_ascii (lit "123456789012345678"))
                (base64_of_ascii (decimal epoch))
                signaturePart) in
  extractUserId token = Return (Some (lit "123456789012345678"))
  /\ extractTimestamp token = Return (Some (Some (epoch * 1000))).
Proof.
  intros Hrange Hsig token. subst token.
  unfold extractUserId, extractTimestamp. cbn [js_split bind try_catch].
  rewrite split_join3
    by (try apply base64_encode_no_dot; exact Hsig).
  change (count [_; _; _] =? 3) with true. cbn [negb nth].
  split.
  - reflexivity.
  - rewrite base64_to_utf8_of_ascii by apply is_ascii_decimal.
    rewrite parseInt10_decimal.
    unfold Date_of_seconds, new_Date, MAX_EPOCH_SECONDS in *.
    destruct (Z.leb_spec (Z.abs (epoch * 1000)) 8640000000000000);
      [reflexivity | lia].
Qed.

(* ===================================================================== *)
(** ** The model on sample inputs *)
(* ===================================================================== *)

Example sample_token_text :
  sample_token
  = lit "MTIzNDU2Nzg5MDEyMzQ1Njc4.MTcwMDAwMDAwMA==.abcdefghijklmnopqrstuvwxyz0".
Proof. reflexivity. Qed.

Example placeholder_is_invalid :
  option_map (fun r => (isValid r, errors r))
    match validateFormat (JStr (lit " your_token_here ")) with
    | Return r => Some r
    | Throw _ => None
    end
  = Some (false, [msg_placeholder; msg_parts 1; msg_too_short 15]).
Proof. reflexivity. Qed.

Example split_keeps_empty_parts :
  split DOT (lit "a..b.") = [lit "a"; []; lit "b"; []].
Proof. reflexivity. Qed.

Example utf8_replacement :
  utf8_decode [226; 130; 172; 255; 195]%N = [8364; 65533; 65533]%N.
Proof. reflexivity. Qed.

Example timestamp_with_sign_and_space :
  extractTimestamp (JStr (lit "a.IC0xMg.c")) = Return (Some (Some (-12000))).
Proof. reflexivity. Qed.

Example timestamp_out_of_range_is_invalid_date :
  extractTimestamp
    (JStr (join3 (lit "a") (base64_of_ascii (decimal 8640000000001)) (lit "c")))
  = Return (Some None).
Proof. reflexivity. Qed.

(** A valid verdict can carry warnings. *)
Example valid_with_warnings :
  option_map (fun r => (isValid r, errors r, warnings r))
    match validateFormat (JStr short_token) with
    | Return r => Some r
    | Throw _ => None
    end
  = Some (true, [], [msg_might_be_short 42]).
Proof. reflexivity. Qed.

(* ===================================================================== *)
(** ** The theorems at sample inputs *)
(* ===================================================================== *)


Lemma validateFormat_valid_iff_no_errors_sample :
  exists r,
    validateFormat (JStr sample_token) = Return r
    /\ (isValid r = true <-> errors r = []).
Proof.
  assert (Hne : sample_token <> []) by discriminate.
  destruct (validateFormat_valid_iff_no_errors sample_token Hne)
    as [[Ht _] | (r & Hr & Hiff & _)].
  - discriminate Ht.
  - exists r. split; assumption.
Defined.

Lemma validateFormat_length_rule_sample :
  exists r,
    validateFormat (JStr short_token) = Return r
    /\ hasCorrectLength (format r) = false
    /\ filter is_length_message (errors r) = []
    /\ filter is_length_message (warnings r) = [msg_might_be_short 42].
Proof.
  assert (Hne : trim short_token <> []) by discriminate.
  destruct (validateFormat_length_rule short_token Hne)
    as (r & Hr & Hflag & _ & Hmid & _).
  assert (Hlen : 30 <= len (trim short_token) < 50) by (vm_compute; intuition discriminate).
  destruct (Hmid Hlen) as (He & Hw & _).
  exists r. split; [exact Hr |]. split; [| split; assumption].
  apply Hflag. apply Hlen.
Defined.

Lemma extraction_never_throws_sample :
  extractUserId (JStr (lit "not a token")) = Return None
  /\ extractTimestamp (JStr (lit "not a token")) = Return None.
Proof.
  destruct (extraction_never_throws (JStr (lit "not a token")))
    as (_ & _ & Hparts & _).
  apply (Hparts (lit "not a token") eq_refl).
  vm_compute. discriminate.
Defined.

Lemma extraction_round_trip_sample :
  extractUserId (JStr sample_token) = Return (Some sample_user_id)
  /\ extractTimestamp (JStr sample_token)
     = Return (Some (Some 1700000000000)).
Proof.
  apply (extraction_round_trip 1700000000 (lit "abcdefghijklmnopqrstuvwxyz0")).
  - vm_compute. discriminate.
  - vm_compute. intuition discriminate.
Defined.

Lemma validateWithApi_invariant_sample :
  exists r,
    validateWithApi sample_gt_zero (JStr sample_token)
                    (as_partial default_config)
                    (ResponseEnd unauthorized_response) = Return r
    /\ success r = false
    /\ userInfo r = None.
Proof.
  destruct (validateWithApi_invariant sample_gt_zero (JStr sample_token)
              (as_partial default_config)
              (ResponseEnd unauthorized_response))
    as (r & Hr & _ & Hfail).
  exists r. split; [exact Hr |].
  assert (Hs : success r = false) by (injection Hr as <-; reflexivity).
  split; [exact Hs | exact (Hfail Hs)].
Defined.

Lemma makeApiRequest_classification_sample :
  makeApiRequest sample_gt_zero (JStr sample_token) default_config
                 (ResponseEnd rate_limited_response)
  = reject (TokenValidationError (lit "Rate limited. Retry after 5 seconds")
              RATE_LIMITED
              (Some (DRateLimit 429 (Some (lit "5")) (JsonObject [])))).
Proof.
  destruct (makeApiRequest_classification sample_gt_zero (JStr sample_token)
              default_config rate_limited_response) as [Hparsed _].
  destruct (Hparsed (JsonObject []) eq_refl) as (_ & _ & H429 & _).
  exact (H429 eq_refl).
Defined.

Lemma validateToken_api_only_sample :
  exists r,
    validateToken sample_gt_zero default_config (JStr odd_token) direct
                  api_only (ResponseEnd unauthorized_response) = Return r
    /\ format r = all_flags_true
    /\ isValid r = false.
Proof.
  destruct (validateToken_api_only sample_gt_zero default_config odd_token
              direct (ResponseEnd unauthorized_response))
    as (r & Hr & Hflags & Hon & _).
  destruct (Hon eq_refl) as (a & Ha & Hv & _).
  injection Ha as <-.
  exists r. split; [exact Hr |]. split; [exact Hflags | exact Hv].
Defined.

Lemma structure_checks_warn_only_sample :
  exists r,
    validateFormat (JStr odd_token) = Return r
    /\ warnings r
       = [warn_user_short; warn_timestamp_short; warn_signature_short;
          warn_signature_chars].
Proof.
  destruct (structure_checks_warn_only odd_token
              (lit "abc") (lit "de") (lit "f!") eq_refl)
    as (_ & r & Hr & Hw & _).
  exists r. split; [exact Hr | exact Hw].
Defined.

Lemma quickFormatCheck_absent_token_sample :
  quickFormatCheck (JStr (lit "   ")) = Return false.
Proof.
  apply (quickFormatCheck_absent_token (JStr (lit "   "))).
  right; right. exists (lit "   "). split; reflexivity.
Defined.

(** A 401 response whose body is not JSON is not classified as
    [UNAUTHORIZED]: the body is parsed before the status is looked at, and
    the request is rejected as [API_ERROR] "Failed to parse API response". *)
Lemma status_401_unparsable_body :
  makeApiRequest sample_gt_zero (JStr sample_token) default_config
                 (ResponseEnd unauthorized_empty_body)
  = reject (TokenValidationError msg_parse_failed API_ERROR
              (Some (DParse (lit "Unexpected end of JSON input") [])))
  /\ ~ (exists m d,
          makeApiRequest sample_gt_zero (JStr sample_token) default_config
                         (ResponseEnd unauthorized_empty_body)
          = reject (TokenValidationError m UNAUTHORIZED d)).
Proof.
  split; [reflexivity |].
  intros (m & d & H). discriminate H.
Qed.

(** A segment that is not URL-safe base64 gets no character warning: the
    first segment of [standard_alphabet_token] holds [+] and [/], which the
    source's character class admits, and the verdict has no warning at
    all. *)
Lemma standard_alphabet_segment_not_warned :
  split DOT (trim standard_alphabet_token)
  = [lit "aaaaaaaa+/"; lit "bbbbbb"; lit "cccccccccccccccccccccccccccccccc"]
  /\ url_safe_base64_test (lit "aaaaaaaa+/") = false
  /\ base64Regex_test (lit "aaaaaaaa+/") = true
  /\ validateFormat (JStr standard_alphabet_token)
     = Return (validateFormat_trimmed standard_alphabet_token)
  /\ warnings (validateFormat_trimmed standard_alphabet_token) = []
  /\ ~ In warn_user_chars
         (warnings (validateFormat_trimmed standard_alphabet_token)).
Proof.
  repeat split; try reflexivity.
  vm_compute. intros [].
Qed.

(* ===================================================================== *)
(** ** Further properties of the format inspector *)
(* ===================================================================== *)

Lemma trim_start_split (s : jsstring) :
  exists p, s = p ++ trim_start s /\ forallb is_ws p = true.
Proof.
  induction s as [| c s IH].
  - exists []. split; reflexivity.
  - simpl. destruct (is_ws c) eqn:Hc.
    + destruct IH as (p & Hp & Hws). exists (c :: p). split.
      * simpl. now rewrite <- Hp.
      * simpl. now rewrite Hc.
    + exists []. split; reflexivity.
Qed.

Lemma trim_start_head (s : jsstring) (c : code_unit) (r : jsstring) :
  trim_start s = c :: r -> is_ws c = false.
Proof.
  induction s as [| a s IH]; [discriminate |].
  simpl. destruct (is_ws a) eqn:Ha; [exact IH |].
  intros [= <- _]. exact Ha.
Qed.

Lemma trim_start_fixed (s : jsstring) :
  (forall c r, s = c :: r -> is_ws c = false) -> trim_start s = s.
Proof.
  destruct s as [| c r]; [reflexivity |].
  intros H. simpl. now rewrite (H c r eq_refl).
Qed.

Lemma trim_start_idempotent (s : jsstring) :
  trim_start (trim_start s) = trim_start s.
Proof.
  apply trim_start_fixed. intros c r. apply trim_start_head.
Qed.

(** Trimming a trimmed string changes nothing. *)
Lemma trim_idempotent (s : jsstring) : trim (trim s) = trim s.
Proof.
  unfold trim.
  set (a := trim_start s). set (b := trim_start (rev a)).
  assert (Hb : trim_start (rev b) = rev b).
  { apply trim_start_fixed. intros c r Hc.
    destruct (trim_start_split (rev a)) as (p & Hp & _). fold b in Hp.
    assert (Ha : a = c :: r ++ rev p).
    { rewrite <- (rev_involutive a), Hp, rev_app_distr, Hc. reflexivity. }
    exact (trim_start_head s c _ Ha). }
  rewrite Hb, rev_involutive. subst b.
  now rewrite trim_start_idempotent.
Qed.

(** What a returned verdict is. *)
Lemma validateFormat_inv (token : jsval) (r : TokenValidationResult) :
  validateFormat token = Return r ->
  exists s, token = JStr s /\ trim s <> []
            /\ r = validateFormat_trimmed (trim s).
Proof.
  destruct token as [| | s]; try discriminate.
  destruct s as [| c s']; [discriminate |].
  unfold validateFormat.
  destruct (len (trim (c :: s')) =? 0) eqn:E; [discriminate |].
  intros [= <-]. exists (c :: s'). split; [reflexivity |].
  split; [| reflexivity].
  intros Ht. rewrite Ht in E. discriminate.
Qed.

Lemma validateFormat_trimmed_metadata (t : jsstring) :
  metadata (validateFormat_trimmed t)
  = {| length := len t; parts := count (split DOT t); source := direct |}.
Proof.
  unfold validateFormat_trimmed.
  destruct (len t >=? 50); destruct (len t <? 30); cbn [negb];
    match goal with
    | |- context [validateTokenStructure ?p ?e ?w] =>
        destruct (validateTokenStructure p e w) as [e' w']
    end; reflexivity.
Qed.

Lemma validateFormat_trimmed_api (t : jsstring) :
  api (validateFormat_trimmed t) = None.
Proof.
  unfold validateFormat_trimmed.
  destruct (len t >=? 50); destruct (len t <? 30); cbn [negb];
    match goal with
    | |- context [validateTokenStructure ?p ?e ?w] =>
        destruct (validateTokenStructure p e w) as [e' w']
    end; reflexivity.
Qed.

(** X1. White space around a token never changes what the format inspector
    returns: the verdict of a token is the verdict of its trimmed text. *)
Theorem validateFormat_ignores_outer_whitespace (s : jsstring) :
  trim s <> [] ->
  validateFormat (JStr s) = validateFormat (JStr (trim s))
  /\ exists r, validateFormat (JStr s) = Return r
               /\ length (metadata r) = len (trim s).
Proof.
  intros Ht.
  rewrite (validateFormat_returns s Ht).
  rewrite (validateFormat_returns (trim s))
    by (rewrite trim_idempotent; exact Ht).
  rewrite trim_idempotent. split; [reflexivity |].
  eexists. split; [reflexivity |].
  now rewrite validateFormat_trimmed_metadata.
Qed.

Lemma split_nonempty (sep : code_unit) (s : jsstring) : split sep s <> [].
Proof.
  induction s as [| c s IH]; simpl; [discriminate |].
  destruct (N.eqb c sep); [discriminate |].
  destruct (split sep s); [contradiction | discriminate].
Qed.

(** A string splits into one more part than it has separators. *)
Lemma count_split (sep : code_unit) (s : jsstring) :
  count (split sep s) = 1 + Z.of_nat (count_occ N.eq_dec s sep).
Proof.
  unfold count. induction s as [| c s IH]; [reflexivity |].
  cbn [split count_occ].
  pose proof (split_nonempty sep s) as Hne.
  destruct (N.eqb_spec c sep) as [-> | Hc].
  - destruct (N.eq_dec sep sep) as [_ | F]; [| now destruct F].
    cbn [List.length]. lia.
  - destruct (N.eq_dec c sep) as [F | _]; [contradiction |].
    destruct (split sep s) as [| p ps]; [contradiction |].
    cbn [List.length] in *. lia.
Qed.

(** X2. The segment count a verdict reports is one more than the number
    of dots in the trimmed token, so [hasCorrectParts] holds exactly when
    the trimmed token has exactly two dots. *)
Theorem hasCorrectParts_iff_two_dots
  (s : jsstring) (r : TokenValidationResult) :
  validateFormat (JStr s) = Return r ->
  parts (metadata r) = 1 + Z.of_nat (count_occ N.eq_dec (trim s) DOT)
  /\ (hasCorrectParts (format r) = true
      <-> count_occ N.eq_dec (trim s) DOT = 2%nat).
Proof.
  intros Hr. apply validateFormat_inv in Hr as (s' & [= <-] & _ & ->).
  rewrite validateFormat_trimmed_metadata, validateFormat_trimmed_flags.
  cbn [parts hasCorrectParts]. rewrite count_split.
  split; [reflexivity |]. rewrite Z.eqb_eq. lia.
Qed.

Lemma str_eqb_eq (a b : jsstring) : str_eqb a b = true -> a = b.
Proof.
  revert b. induction a as [| x a IH]; intros [| y b]; simpl;
    try discriminate; [reflexivity |].
  intros H. apply andb_true_iff in H as [Hx Ha].
  apply N.eqb_eq in Hx. subst. f_equal. now apply IH.
Qed.

(** Every placeholder is a single short segment. *)
Lemma placeholder_shape (t : jsstring) :
  includes_str t placeholders = true ->
  count (split DOT t) = 1 /\ len t < 30.
Proof.
  unfold includes_str, placeholders. cbn [existsb].
  rewrite !orb_true_iff.
  intros [H | [H | [H | [H | [H | H]]]]]; try discriminate H;
    apply str_eqb_eq in H; subst t; vm_compute; split; reflexivity.
Qed.

(** X3. The validity of a verdict is decided by four of its flags and the
    30-character minimum: [hasCorrectLength] takes no part in it, and the
    placeholder check never decides alone, since every placeholder also
    fails the segment count. *)
Theorem validateFormat_valid_iff_flags
  (s : jsstring) (r : TokenValidationResult) :
  validateFormat (JStr s) = Return r ->
  isValid r
  = hasCorrectParts (format r)
    && (30 <=? length (metadata r))
    && hasNoSpaces (format r)
    && hasNoQuotes (format r)
    && isNotBotToken (format r).
Proof.
  intros Hr. apply validateFormat_inv in Hr as (s' & [= <-] & _ & ->).
  rewrite validateFormat_trimmed_valid_checks.
  rewrite validateFormat_trimmed_metadata, validateFormat_trimmed_flags.
  cbn [hasCorrectParts hasNoSpaces hasNoQuotes isNotBotToken length].
  destruct (includes_str (trim s) placeholders) eqn:Hp; [| reflexivity].
  destruct (placeholder_shape _ Hp) as [Hc _]. rewrite Hc. reflexivity.
Qed.

Lemma startsWith_prefix (p t : jsstring) :
  startsWith p t = true -> exists r, t = p ++ r.
Proof.
  revert t. induction p as [| x p IH]; intros t.
  - exists t. reflexivity.
  - destruct t as [| y t]; [discriminate |]. cbn [startsWith].
    intros H. apply andb_true_iff in H as [Hx Hp].
    apply N.eqb_eq in Hx. subst y.
    destruct (IH t Hp) as (r & ->). exists r. reflexivity.
Qed.

Lemma startsWith_Bot_has_space (t : jsstring) :
  startsWith (lit "Bot ") t = true -> includes_char SPACE t = true.
Proof.
  intros H. apply startsWith_prefix in H as (r & ->). reflexivity.
Qed.

(** X4. The flags are not independent: a token flagged as a bot token
    always fails the space check too, and its verdict carries both error
    messages. *)
Theorem bot_token_fails_space_check
  (s : jsstring) (r : TokenValidationResult) :
  validateFormat (JStr s) = Return r ->
  isNotBotToken (format r) = false ->
  hasNoSpaces (format r) = false
  /\ In msg_bot (errors r)
  /\ In msg_spaces (errors r)
  /\ isValid r = false.
Proof.
  intros Hr. apply validateFormat_inv in Hr as (s' & [= <-] & _ & ->).
  rewrite validateFormat_trimmed_valid_checks, validateFormat_trimmed_errors.
  rewrite validateFormat_trimmed_flags.
  cbn [hasCorrectParts hasNoSpaces hasNoQuotes isNotBotToken].
  intros Hb. apply negb_false_iff in Hb.
  pose proof (startsWith_Bot_has_space _ Hb) as Hsp.
  rewrite Hb, Hsp. cbn [negb when]. rewrite !andb_false_r.
  repeat split; rewrite !in_app_iff; cbn [In]; tauto.
Qed.

(* ===================================================================== *)
(** ** Further properties of the extraction utilities *)
(* ===================================================================== *)

Lemma utf16_not_ascii (cp : N) (rest : jsstring) :
  (128 <= cp)%N -> ~ is_ascii (utf16 cp ++ rest).
Proof.
  intros Hcp H. unfold is_ascii, utf16 in H.
  destruct (N.ltb_spec cp 65536); cbn [app] in H; apply Forall_inv in H;
    cbv beta in H; [lia | euclid].
Qed.

(** Decoded text that is all ASCII comes from bytes that are all ASCII:
    every other byte decodes to a code unit above 127. *)
Lemma utf8_decode_ascii_inv_aux (n : nat) :
  forall bs, (List.length bs <= n)%nat ->
    is_ascii (utf8_decode bs) -> utf8_decode bs = bs.
Proof.
  induction n as [| n IH]; intros bs Hlen.
  - destruct bs; [reflexivity | simpl in Hlen; lia].
  - destruct bs as [| b r]; [reflexivity |].
    cbn [List.length] in Hlen. unfold is_ascii.
    cbn [utf8_decode].
    destruct (N.leb_spec b 127) as [Hb | Hb].
    + intros H. inversion_clear H as [| ? ? _ Hr].
      rewrite (IH r); [reflexivity | lia | exact Hr].
    + intros H. exfalso.
      unfold in_range, REPLACEMENT in H.
      destruct (N.eqb_spec b 224), (N.eqb_spec b 237),
        (N.eqb_spec b 240), (N.eqb_spec b 244); try lia;
      repeat match type of H with
             | Forall _ (if ?c then _ else _) => destruct c eqn:?
             | Forall _ (match ?l with [] => _ | _ :: _ => _ end) =>
                 destruct l
             end;
        try (apply Forall_inv in H; lia);
        try (apply utf16_not_ascii in H; [exact H | lia]).
Qed.

Lemma utf8_decode_ascii_inv (bs : list byte) :
  is_ascii (utf8_decode bs) -> utf8_decode bs = bs.
Proof. apply (utf8_decode_ascii_inv_aux (List.length bs)). lia. Qed.

Lemma all_digits_is_ascii (d : jsstring) :
  all_digits_test d = true -> is_ascii d.
Proof.
  destruct d as [| c d]; [discriminate |].
  unfold all_digits_test. rewrite forallb_forall. intros H.
  apply Forall_forall. intros x Hx. specialize (H x Hx).
  unfold is_digit in H. lia.
Qed.

(** X5. Whatever [extractUserId] returns other than [null] is a non-empty
    string of decimal digits, and it is byte for byte what the first of
    exactly three segments decodes to: the decoded bytes are the ASCII
    digits themselves, with no multi-byte sequence and no replacement
    character involved. *)
Theorem extractUserId_result_is_digits (token : jsval) (u : jsstring) :
  extractUserId token = Return (Some u) ->
  all_digits_test u = true
  /\ u <> []
  /\ exists s, token = JStr s
               /\ count (split DOT s) = 3
               /\ u = base64_to_utf8 (nth 0 (split DOT s) [])
               /\ Buffer_from_base64 (nth 0 (split DOT s) []) = u.
Proof.
  unfold extractUserId.
  destruct token as [| | s]; simpl; try discriminate.
  destruct (Z.eqb_spec (count (split DOT s)) 3) as [Hc | _]; simpl;
    [| discriminate].
  destruct (all_digits_test _) eqn:Hd; [| discriminate].
  intros [= <-]. split; [exact Hd |]. split.
  - intros E. rewrite E in Hd. discriminate.
  - exists s. split; [reflexivity |]. split; [exact Hc |].
    split; [reflexivity |].
    unfold base64_to_utf8 in *. symmetry.
    apply utf8_decode_ascii_inv. now apply all_digits_is_ascii.
Qed.

(** X6. [extractUserId] recovers every numeric identity: for any non-empty
    digit string, a token whose first segment is its base64 encoding
    yields that string, whatever the two other segments are. *)
Theorem extractUserId_round_trip
  (userId timestampPart signaturePart : jsstring) :
  all_digits_test userId = true ->
  ~ In DOT timestampPart ->
  ~ In DOT signaturePart ->
  extractUserId
    (JStr (join3 (base64_of_ascii userId) timestampPart signaturePart))
  = Return (Some userId).
Proof.
  intros Hd Ht Hs. unfold extractUserId. cbn [js_split bind try_catch].
  rewrite split_join3 by (try apply base64_encode_no_dot; assumption).
  change (count [_; _; _] =? 3) with true. cbn [negb nth].
  rewrite base64_to_utf8_of_ascii by now apply all_digits_is_ascii.
  now rewrite Hd.
Qed.

(** X7. A date returned by [extractTimestamp] that is not the invalid
    date is a whole number of seconds within the range of [Date]. *)
Theorem extractTimestamp_result_range (token : jsval) (ms : Z) :
  extractTimestamp token = Return (Some (Some ms)) ->
  ms mod 1000 = 0 /\ Z.abs ms <= 8640000000000000.
Proof.
  unfold extractTimestamp.
  destruct token as [| | s]; simpl; try discriminate.
  destruct (count (split DOT s) =? 3); simpl; [| discriminate].
  destruct (parseInt10 _) as [n |]; [| discriminate].
  unfold Date_of_seconds, new_Date.
  destruct (Z.leb_spec (Z.abs (n * 1000)) 8640000000000000) as [Hr | _];
    [| discriminate].
  intros [= <-]. split; [apply Z_mod_mult | exact Hr].
Qed.

(** X8. A timestamp segment that encodes a number of seconds beyond the
    range of [Date] does not give [null]: [extractTimestamp] returns the
    invalid date. *)
Theorem extractTimestamp_out_of_range
  (epoch : Z) (userPart signaturePart : jsstring) :
  MAX_EPOCH_SECONDS < Z.abs epoch ->
  ~ In DOT userPart ->
  ~ In DOT signaturePart ->
  extractTimestamp
    (JStr (join3 userPart (base64_of_ascii (decimal epoch)) signaturePart))
  = Return (Some None).
Proof.
  intros Hr Hu Hs. unfold extractTimestamp. cbn [js_split bind try_catch].
  rewrite split_join3 by (try apply base64_encode_no_dot; assumption).
  change (count [_; _; _] =? 3) with true. cbn [negb nth].
  rewrite base64_to_utf8_of_ascii by apply is_ascii_decimal.
  rewrite parseInt10_decimal.
  unfold Date_of_seconds, new_Date, MAX_EPOCH_SECONDS in *.
  destruct (Z.leb_spec (Z.abs (epoch * 1000)) 8640000000000000);
    [lia | reflexivity].
Qed.

(* ===================================================================== *)
(** ** Properties of the token age *)
(* ===================================================================== *)

(** X9. For a timestamp that is not in the future (and an age below 2^53
    milliseconds, where the arithmetic is exact), [getTokenAge] prints a
    count and a unit such that the count never overstates the age: hours
    from 0 to 23 below one day, days from 1 to 29, months of 30 days from 1
    to 12, then years of 365 days from 1 on. *)
Theorem getTokenAge_bounds (now timestamp : Z) :
  timestamp <= now ->
  now - timestamp < 2 ^ 53 ->
  let age := now - timestamp in
  exists n unit,
    getTokenAge now timestamp = decimal n ++ unit
    /\ ((unit = lit " hours" /\ 0 <= n < 24
         /\ n * MS_PER_HOUR <= age < (n + 1) * MS_PER_HOUR)
        \/ (unit = lit " days" /\ 1 <= n < 30
            /\ n * MS_PER_DAY <= age < (n + 1) * MS_PER_DAY)
        \/ (unit = lit " months" /\ 1 <= n <= 12
            /\ n * 30 * MS_PER_DAY <= age < (n + 1) * 30 * MS_PER_DAY)
        \/ (unit = lit " years" /\ 1 <= n
            /\ n * 365 * MS_PER_DAY <= age
               < (n + 1) * 365 * MS_PER_DAY)).
Proof.
  intros Hle _ age. unfold getTokenAge. fold age.
  unfold MS_PER_HOUR, MS_PER_DAY.
  destruct (Z.ltb_spec (age / (1000 * 60 * 60 * 24)) 1) as [H1 | H1].
  - exists (age / (1000 * 60 * 60)), (lit " hours").
    split; [reflexivity |]. left. split; [reflexivity |].
    subst age. euclid.
  - destruct (Z.ltb_spec (age / (1000 * 60 * 60 * 24)) 30) as [H30 | H30].
    + exists (age / (1000 * 60 * 60 * 24)), (lit " days").
      split; [reflexivity |]. right; left. split; [reflexivity |].
      subst age. euclid.
    + destruct (Z.ltb_spec (age / (1000 * 60 * 60 * 24)) 365)
        as [H365 | H365].
      * exists (age / (1000 * 60 * 60 * 24) / 30), (lit " months").
        split; [reflexivity |]. right; right; left.
        split; [reflexivity |]. subst age. euclid.
      * exists (age / (1000 * 60 * 60 * 24) / 365), (lit " years").
        split; [reflexivity |]. right; right; right.
        split; [reflexivity |]. subst age. euclid.
Qed.

Section PipelineProperties.

Variable gt_zero : option json -> bool.
Variable String_of : thrown -> jsstring.

(* ===================================================================== *)
(** ** Further properties of the liveness prober *)
(* ===================================================================== *)

(** The request is fulfilled in one case only: status 200 with a body that
    parses to something other than [null] and whose [premium_type] can be
    compared with 0. *)
Lemma makeApiRequest_resolves_iff
  (token : jsval) (config : TokenCheckerConfig) (ev : net_event) :
  (exists u, makeApiRequest gt_zero token config ev = resolve u)
  <-> exists res response,
        ev = ResponseEnd res
        /\ res_statusCode res = 200
        /\ JSON_parse_data res = Parsed response
        /\ response <> JsonNull
        /\ comparison_throws (get response "premium_type") = false.
Proof.
  split.
  - destruct ev as [res | m | | e]; simpl; try (intros [u H]; discriminate H).
    unfold on_end.
    destruct (JSON_parse_data res) as [m | response] eqn:Hp; simpl;
      [intros [u H]; discriminate H |].
    destruct (Z.eqb_spec (res_statusCode res) 200) as [Hc | _].
    + destruct (parseUserInfo gt_zero response) as [u0 | e] eqn:Hu; simpl;
        [| intros [u H]; discriminate H].
      intros _. exists res, response. repeat split; try assumption.
      * intros ->. discriminate Hu.
      * destruct (comparison_throws (get response "premium_type")) eqn:Ht;
          [| reflexivity].
        destruct response; try discriminate Hu;
          unfold parseUserInfo, js_gt_zero in Hu; rewrite Ht in Hu;
          discriminate Hu.
    + destruct (res_statusCode res =? 401);
        [intros [u H]; discriminate H |].
      destruct (res_statusCode res =? 429);
        [intros [u H]; discriminate H |].
      destruct (res_statusCode res =? 403); intros [u H]; discriminate H.
  - intros (res & response & -> & Hc & Hp & Hn & Ht). simpl. unfold on_end.
    rewrite Hp, Hc. simpl.
    destruct (parseUserInfo_total gt_zero response Hn Ht) as [u Hu].
    exists u. now rewrite Hu.
Qed.

Lemma validateWithApi_success_resolves
  (token : jsval) (config : PartialConfig) (ev : net_event)
  (r : ApiValidationResponse) :
  validateWithApi gt_zero token config ev = Return r ->
  (success r = true
   <-> exists u, makeApiRequest gt_zero token default_config ev = resolve u).
Proof.
  unfold validateWithApi.
  set (finalConfig := Build_TokenCheckerConfig _ _ _ _ _).
  rewrite (makeApiRequest_resolves_iff token default_config).
  rewrite <- (makeApiRequest_resolves_iff token finalConfig).
  destruct (makeApiRequest gt_zero token finalConfig ev) as [u | e]; simpl.
  - destruct (nullish (p_includeUserInfo config) true); intros [= <-];
      (split; [intros _; now exists u | reflexivity]).
  - destruct e; intros [= <-]; simpl;
      (split; [discriminate | intros [u H]; discriminate H]).
Qed.

(** X10. The liveness outcome is a success in exactly one case: the
    response has status 200, its body parses as JSON to a value other than
    [null], and the [premium_type] of that value can be converted to a
    primitive for the comparison with 0 (it is not an object with an own
    [toString] property, nor an array holding one).  Nothing else of the
    payload is examined. *)
Theorem validateWithApi_success_iff
  (token : jsval) (config : PartialConfig) (ev : net_event)
  (r : ApiValidationResponse) :
  validateWithApi gt_zero token config ev = Return r ->
  (success r = true
   <-> exists res response,
         ev = ResponseEnd res
         /\ res_statusCode res = 200
         /\ JSON_parse_data res = Parsed response
         /\ response <> JsonNull
         /\ comparison_throws (get response "premium_type") = false).
Proof.
  intros Hr. rewrite (validateWithApi_success_resolves _ _ _ _ Hr).
  apply makeApiRequest_resolves_iff.
Qed.

(** X11. A liveness outcome carries a user profile exactly when it is a
    success and [includeUserInfo] is not switched off. *)
Theorem validateWithApi_userInfo_iff
  (token : jsval) (config : PartialConfig) (ev : net_event)
  (r : ApiValidationResponse) :
  validateWithApi gt_zero token config ev = Return r ->
  (userInfo r <> None
   <-> success r = true /\ p_includeUserInfo config <> Some false).
Proof.
  unfold validateWithApi.
  set (finalConfig := Build_TokenCheckerConfig _ _ _ _ _).
  destruct (makeApiRequest gt_zero token finalConfig ev) as [u | e]; simpl.
  - destruct (p_includeUserInfo config) as [[|] |]; simpl; intros [= <-];
      simpl; split; try discriminate; try (intros _; split; congruence);
      try (intros [_ H]; congruence); intros H; now destruct H.
  - destruct e; intros [= <-]; simpl;
      (split; [intros H; now destruct H | intros [H _]; discriminate H]).
Qed.

(** X12. For a response that ended, a failed outcome reports the status
    code exactly when the body parsed (and the status is not 200), and is
    flagged as rate limited exactly when the body parsed and the status is
    429.  A response whose body does not parse loses its status code. *)
Theorem validateWithApi_response_fields
  (token : jsval) (config : PartialConfig) (res : IncomingMessage)
  (r : ApiValidationResponse) :
  validateWithApi gt_zero token config (ResponseEnd res) = Return r ->
  success r = false ->
  let parsed :=
    match JSON_parse_data res with Parsed _ => true | _ => false end in
  statusCode r
  = (if parsed && negb (res_statusCode res =? 200)
     then Some (res_statusCode res) else None)
  /\ rateLimited r = Some (parsed && (res_statusCode res =? 429)).
Proof.
  unfold validateWithApi, makeApiRequest, on_end.
  destruct (JSON_parse_data res) as [m | response]; simpl.
  - intros [= <-] _. split; reflexivity.
  - destruct (Z.eqb_spec (res_statusCode res) 200) as [Hc | Hc].
    + rewrite Hc.
      destruct (parseUserInfo gt_zero response) as [u | e]; simpl.
      * destruct (nullish (p_includeUserInfo config) true);
          intros [= <-]; discriminate.
      * intros [= <-] _. split; reflexivity.
    + destruct (Z.eqb_spec (res_statusCode res) 401) as [H1 | H1];
        [rewrite H1; intros [= <-] _; split; reflexivity |].
      destruct (Z.eqb_spec (res_statusCode res) 429) as [H2 | H2];
        [rewrite H2; intros [= <-] _; split; reflexivity |].
      destruct (Z.eqb_spec (res_statusCode res) 403) as [H3 | H3];
        [rewrite H3; intros [= <-] _; split; reflexivity |].
      intros [= <-] _. split; reflexivity.
Qed.

(** X13. [parseUserInfo] throws in exactly two cases: the payload is
    [null], or its [premium_type] cannot be converted to a primitive.  In
    every other case it copies [id] and [username] and yields a
    discriminator that is never falsy: the payload's discriminator when
    that is truthy and the string "0" otherwise. *)
Theorem parseUserInfo_discriminator (response : json) :
  ((exists e, parseUserInfo gt_zero response = Throw e)
   <-> response = JsonNull
       \/ comparison_throws (get response "premium_type") = true)
  /\ (response <> JsonNull ->
      comparison_throws (get response "premium_type") = false ->
      exists u,
        parseUserInfo gt_zero response = Return u
        /\ truthy (Some (discriminator u)) = true
        /\ (truthy (get response "discriminator") = true ->
            Some (discriminator u) = get response "discriminator")
        /\ (truthy (get response "discriminator") = false ->
            discriminator u = JsonString (lit "0"))
        /\ id u = get response "id"
        /\ username u = get response "username").
Proof.
  split.
  - split.
    + intros [e He]. exact (parseUserInfo_throws gt_zero response e He).
    + intros [-> | Ht]; [eexists; reflexivity |].
      destruct response; try (eexists; reflexivity);
        unfold parseUserInfo, js_gt_zero; rewrite Ht; eexists; reflexivity.
  - intros Hn Ht.
    assert (H : parseUserInfo gt_zero response
                = Return
                    {| id := get response "id";
                       username := get response "username";
                       discriminator :=
                         match get response "discriminator" with
                         | Some d =>
                             if truthy (Some d) then d
                             else JsonString (lit "0")
                         | None => JsonString (lit "0")
                         end;
                       email := get response "email";
                       verified := get response "verified";
                       mfaEnabled := get response "mfa_enabled";
                       premium := gt_zero (get response "premium_type");
                       premiumType := get response "premium_type";
                       avatar := get response "avatar";
                       banner := get response "banner";
                       accentColor := get response "accent_color" |})
      by (destruct response; try (now destruct Hn);
          unfold parseUserInfo, js_gt_zero; rewrite Ht; reflexivity).
    eexists. split; [exact H |]. cbn [discriminator id username].
    destruct (get response "discriminator") as [d |] eqn:Hd.
    + destruct (truthy (Some d)) eqn:Htr.
      * repeat split; try assumption; try reflexivity. discriminate.
      * repeat split; try reflexivity. discriminate.
    + repeat split; try reflexivity. discriminate.
Qed.

Lemma Number_of_Z_exact (n : Z) :
  Z.abs n <= 2 ^ 53 -> Number_of_Z n = Num n.
Proof.
  intros Hn. unfold Number_of_Z.
  destruct (Z.ltb_spec (Z.abs n) (2 ^ 53)) as [_ | Hge]; [reflexivity |].
  assert (n = 2 ^ 53 \/ n = - 2 ^ 53) as [-> | ->] by lia;
    vm_compute; reflexivity.
Qed.

Lemma decimal_nonempty (n : Z) : decimal n <> [].
Proof.
  unfold decimal. destruct (n <? 0); [discriminate |].
  unfold digits. cbn [digits_fuel].
  destruct (n <? 10); [discriminate |].
  now destruct (digits_fuel _ _).
Qed.

(** X14. The retry delay read back from a rate-limit failure is the
    number the provider sent: a 429 response whose body parses and whose
    [retry-after] header is the decimal numeral of an integer [n] of
    magnitude at most 2^53 is rejected with an error that [isRateLimited]
    recognises and from which [getRetryDelay] returns [n].  (Beyond 2^53
    the delay is the nearest binary64 value.) *)
Theorem getRetryDelay_round_trip
  (token : jsval) (config : TokenCheckerConfig) (res : IncomingMessage)
  (response : json) (n : Z) :
  Z.abs n <= 2 ^ 53 ->
  res_statusCode res = 429 ->
  JSON_parse_data res = Parsed response ->
  res_retry_after res = Some (decimal n) ->
  exists e,
    makeApiRequest gt_zero token config (ResponseEnd res) = reject e
    /\ isRateLimited e = true
    /\ getRetryDelay e = Num n.
Proof.
  intros Hn Hc Hp Hh. simpl. unfold on_end. rewrite Hp, Hc, Hh. simpl.
  eexists. split; [reflexivity |]. split; [reflexivity |].
  unfold getRetryDelay. cbn [isRateLimited details_retryAfter].
  pose proof (decimal_nonempty n) as Hd.
  destruct (decimal n) as [| c d] eqn:E; [now destruct Hd |].
  cbn [TokenErrorType_eqb truthy_str andb nullish]. rewrite <- E.
  unfold parseInt. rewrite parseInt10_decimal.
  now apply Number_of_Z_exact.
Qed.

(** X15. [getRetryDelay] answers the default of 60 seconds for every
    failure of the prober except a 429 response whose body parses and whose
    [retry-after] header is a non-empty string; for that one it answers
    what [parseInt] reads from the header, which is NaN when the header
    does not start with a number. *)
Theorem getRetryDelay_default
  (token : jsval) (config : TokenCheckerConfig) (ev : net_event)
  (e : thrown) :
  makeApiRequest gt_zero token config ev = reject e ->
  (forall x, ev <> RequestThrows x) ->
  getRetryDelay e
  = match ev with
    | ResponseEnd res =>
        match JSON_parse_data res, res_retry_after res with
        | Parsed _, Some (c :: h) =>
            if res_statusCode res =? 429 then parseInt (c :: h)
            else Num 60
        | _, _ => Num 60
        end
    | _ => Num 60
    end.
Proof.
  destruct ev as [res | m | | x]; simpl.
  - unfold on_end.
    destruct (JSON_parse_data res) as [m | response]; simpl.
    + intros [= <-] _. reflexivity.
    + destruct (Z.eqb_spec (res_statusCode res) 200) as [Hc | Hc].
      * rewrite Hc.
        destruct (parseUserInfo gt_zero response) as [u | x]; simpl;
          [discriminate |].
        intros [= <-] _. now destruct (res_retry_after res) as [[| ? ?] |].
      * destruct (Z.eqb_spec (res_statusCode res) 401) as [H1 | H1].
        { rewrite H1. intros [= <-] _.
          now destruct (res_retry_after res) as [[| ? ?] |]. }
        destruct (Z.eqb_spec (res_statusCode res) 429) as [H2 | H2].
        { intros [= <-] _.
          now destruct (res_retry_after res) as [[| ? ?] |]. }
        destruct (Z.eqb_spec (res_statusCode res) 403) as [H3 | H3];
          intros [= <-] _;
          now destruct (res_retry_after res) as [[| ? ?] |].
  - intros [= <-] _. reflexivity.
  - intros [= <-] _. reflexivity.
  - intros _ H. now destruct (H x).
Qed.

Lemma validateWithApi_success_no_error
  (token : jsval) (config : PartialConfig) (ev : net_event)
  (r : ApiValidationResponse) :
  validateWithApi gt_zero token config ev = Return r ->
  success r = true -> error r = None.
Proof.
  unfold validateWithApi.
  set (finalConfig := Build_TokenCheckerConfig _ _ _ _ _).
  destruct (makeApiRequest gt_zero token finalConfig ev) as [u | e]; simpl.
  - destruct (nullish (p_includeUserInfo config) true); intros [= <-];
      reflexivity.
  - destruct e; intros [= <-]; discriminate.
Qed.



(* ===================================================================== *)
(** ** Further properties of the orchestrator *)
(* ===================================================================== *)

(** X18. Without the API step the orchestrator is the format inspector
    with the source stamped on: for method [format], and for method [both]
    on a checker whose [checkApi] is off, the result has no [api] part and
    does not depend on the network event. *)
Theorem validateToken_without_api
  (config : TokenCheckerConfig) (token : jsval) (source : TokenSource)
  (method : ValidationMethod) (ev : net_event) :
  method = format_only \/ (method = both /\ checkApi config = false) ->
  validateToken gt_zero config token source method ev
  = (r <- validateFormat token ;; Return (with_source r source))
  /\ forall r,
       validateToken gt_zero config token source method ev = Return r ->
       api r = None.
Proof.
  intros Hm.
  assert (E : validateToken gt_zero config token source method ev
              = (r <- validateFormat token ;; Return (with_source r source))).
  { unfold validateToken.
    destruct Hm as [-> | [-> Hc]];
      destruct (validateFormat token) as [fmt | e]; simpl;
      try reflexivity.
    - now destruct (isValid fmt).
    - rewrite Hc, andb_false_r. reflexivity. }
  split; [exact E |].
  intros r. rewrite E.
  destruct (validateFormat token) as [fmt | e] eqn:Hf; simpl;
    [| discriminate].
  intros [= <-]. apply validateFormat_inv in Hf as (s & _ & _ & ->).
  apply validateFormat_trimmed_api.
Qed.

Lemma validateFormat_result_valid (token : jsval)
  (fmt : TokenValidationResult) :
  validateFormat token = Return fmt ->
  api fmt = None /\ (isValid fmt = true -> errors fmt = []).
Proof.
  intros Hf. apply validateFormat_inv in Hf as (s & _ & _ & ->).
  split; [apply validateFormat_trimmed_api |].
  rewrite validateFormat_trimmed_isValid. apply count_zero_iff.
Qed.

Lemma api_step_valid
  (result : TokenValidationResult) (token : jsval) (config : PartialConfig)
  (ev : net_event) :
  let r := api_step result (validateWithApi gt_zero token config ev) in
  isValid r = true ->
  isValid result = true
  /\ errors r = errors result
  /\ exists info, api r = Some info
                  /\ isActive info = true /\ api_error info = None.
Proof.
  destruct (validateWithApi_returns gt_zero token config ev) as (a & Ha).
  rewrite Ha. unfold api_step.
  destruct (success a) eqn:Hs; cbn [negb isValid errors api];
    [| discriminate].
  intros Hv. split; [exact Hv |]. split; [reflexivity |].
  eexists. split; [reflexivity |]. cbn [isActive api_error].
  split; [reflexivity |].
  now rewrite (validateWithApi_success_no_error _ _ _ _ Ha Hs).
Qed.

(** X19. Whatever the method and the configuration, a result that is valid
    carries no error, and if it has an [api] part that part is active and
    has no error string. *)
Theorem validateToken_valid_has_no_errors
  (config : TokenCheckerConfig) (token : jsval) (source : TokenSource)
  (method : ValidationMethod) (ev : net_event) (r : TokenValidationResult) :
  validateToken gt_zero config token source method ev = Return r ->
  isValid r = true ->
  errors r = []
  /\ forall info, api r = Some info ->
                  isActive info = true /\ api_error info = None.
Proof.
  unfold validateToken.
  destruct method.
  - destruct (validateFormat token) as [fmt | e] eqn:Hf; simpl;
      [| discriminate].
    destruct (validateFormat_result_valid _ _ Hf) as [Hapi Herr].
    assert (E : forall x : outcome TokenValidationResult,
               (if negb (isValid fmt) && true
                then Return (with_source fmt source)
                else Return (with_source fmt source)) = x ->
               Return (with_source fmt source) = x)
      by (now destruct (isValid fmt)).
    intros H. apply E in H. injection H as <-. unfold with_source. cbn [isValid errors api].
    intros Hv. split; [now apply Herr |]. rewrite Hapi. discriminate.
  - destruct token as [| | s]; simpl; try discriminate.
    destruct (checkApi config).
    + intros [= <-] Hv.
      destruct (api_step_valid _ _ _ _ Hv) as (_ & He & info & Hi & Ha & Hn).
      split; [exact He |].
      intros info'. rewrite Hi. intros [= <-]. split; assumption.
    + intros [= <-] _. split; [reflexivity | discriminate].
  - destruct (validateFormat token) as [fmt | e] eqn:Hf; simpl;
      [| discriminate].
    destruct (validateFormat_result_valid _ _ Hf) as [Hapi Herr].
    rewrite andb_false_r.
    destruct (checkApi config).
    + intros [= <-] Hv.
      destruct (api_step_valid _ _ _ _ Hv) as (Hv0 & He & info & Hi & Ha & Hn).
      split; [rewrite He; now apply Herr |].
      intros info'. rewrite Hi. intros [= <-]. split; assumption.
    + intros [= <-]. unfold with_source. cbn [isValid errors api].
      intros Hv. split; [now apply Herr |]. rewrite Hapi. discriminate.
Qed.

(** X20. For a token string the orchestrator throws in one situation only:
    the method includes format validation and the token is empty after
    trimming; what it throws is the [TOKEN_NOT_FOUND] error of the format
    inspector.  Nothing is thrown once the API step has started. *)
Theorem validateToken_throws_iff
  (config : TokenCheckerConfig) (s : jsstring) (source : TokenSource)
  (method : ValidationMethod) (ev : net_event) (e : thrown) :
  validateToken gt_zero config (JStr s) source method ev = Throw e
  <-> method <> api_only
      /\ trim s = []
      /\ e = TokenValidationError
               (if len s =? 0 then lit "Token is null or undefined"
                else lit "Token is empty")
               TOKEN_NOT_FOUND None.
Proof.
  assert (Hblank : trim s = [] ->
            validateFormat (JStr s)
            = Throw (TokenValidationError
                       (if len s =? 0 then lit "Token is null or undefined"
                        else lit "Token is empty") TOKEN_NOT_FOUND None)).
  { intros Ht. destruct s as [| c s']; [reflexivity |].
    now apply validateFormat_blank. }
  unfold validateToken. split.
  - destruct method.
    + destruct (trim s) as [| c t] eqn:Ht.
      * rewrite (Hblank eq_refl). simpl. intros [= <-].
        split; [discriminate | split; reflexivity].
      * rewrite validateFormat_returns by (rewrite Ht; discriminate).
        simpl.
        now destruct (isValid (validateFormat_trimmed (trim s))).
    + simpl. destruct (checkApi config); discriminate.
    + destruct (trim s) as [| c t] eqn:Ht.
      * rewrite (Hblank eq_refl). simpl. intros [= <-].
        split; [discriminate | split; reflexivity].
      * rewrite validateFormat_returns by (rewrite Ht; discriminate).
        simpl. rewrite andb_false_r.
        destruct (checkApi config); discriminate.
  - intros (Hm & Ht & ->).
    destruct method; [| now destruct Hm |];
      rewrite (Hblank Ht); reflexivity.
Qed.

(** X21. The [validateFormat] option of the configuration is never
    consulted (nor is [userAgent], which only travels in a request
    header): two configurations that agree on [checkApi], [timeout] and
    [includeUserInfo] give the same result. *)
Theorem validateToken_ignores_validateFormat_option
  (c1 c2 : TokenCheckerConfig) (token : jsval) (source : TokenSource)
  (method : ValidationMethod) (ev : net_event) :
  checkApi c1 = checkApi c2 ->
  timeout c1 = timeout c2 ->
  includeUserInfo c1 = includeUserInfo c2 ->
  validateToken gt_zero c1 token source method ev
  = validateToken gt_zero c2 token source method ev.
Proof.
  destruct c1 as [a1 t1 i1 v1 u1], c2 as [a2 t2 i2 v2 u2]. simpl.
  intros -> -> ->. unfold validateToken. cbn [checkApi].
  assert (E : validateWithApi gt_zero token
                (as_partial (Build_TokenCheckerConfig a2 t2 i2 v1 u1)) ev
              = validateWithApi gt_zero token
                  (as_partial (Build_TokenCheckerConfig a2 t2 i2 v2 u2)) ev)
    by (unfold validateWithApi; destruct ev; reflexivity).
  now rewrite E.
Qed.

(* ===================================================================== *)
(** ** Properties of the token sources *)
(* ===================================================================== *)

(** A token that is not blank always gets a result from a validation that
    includes the format step. *)
Lemma validateToken_both_returns
  (config : TokenCheckerConfig) (s : jsstring) (src : TokenSource)
  (ev : net_event) :
  trim s <> [] ->
  exists r,
    validateToken gt_zero config (JStr s) src both ev = Return r
    /\ src = source (metadata r)
    /\ r = (if checkApi config
            then api_step
                   (with_source (validateFormat_trimmed (trim s)) src)
                   (validateWithApi gt_zero (JStr s) (as_partial config) ev)
            else with_source (validateFormat_trimmed (trim s)) src).
Proof.
  intros Ht. unfold validateToken.
  rewrite (validateFormat_returns s Ht). simpl. rewrite andb_false_r.
  destruct (checkApi config).
  - eexists. split; [reflexivity |]. split; [| reflexivity].
    destruct (validateWithApi_returns gt_zero (JStr s) (as_partial config) ev)
      as (a & Ha).
    rewrite Ha. unfold api_step. destruct (success a); reflexivity.
  - eexists. split; [reflexivity |]. split; reflexivity.
Qed.

(** X22. [validateFromFile] throws for three reasons only, each time a
    [TokenValidationError] and never with the file removed: the file does
    not exist ([FILE_NOT_FOUND]); reading it fails (the read error wrapped
    as [FILE_NOT_FOUND]); its content is empty after trimming
    ([TOKEN_NOT_FOUND]). *)
Theorem validateFromFile_throws
  (config : TokenCheckerConfig) (options : FileTokenOptions) (w : FileWorld)
  (ev : net_event) (e : thrown) :
  file_outcome (validateFromFile gt_zero String_of config options w ev)
  = Throw e ->
  file_removed (validateFromFile gt_zero String_of config options w ev)
  = false
  /\ ((existsSync w = false
       /\ e = TokenValidationError (msg_file_not_found (filePath options))
                                   FILE_NOT_FOUND None)
      \/ (existsSync w = true
          /\ exists x,
              readFileSync w = Throw x
              /\ e = match x with
                     | TokenValidationError _ _ _ => x
                     | _ => TokenValidationError
                              (msg_read_failed String_of x) FILE_NOT_FOUND
                              (Some (DOriginal (message_or [] x)))
                     end)
      \/ (existsSync w = true
          /\ exists content,
              readFileSync w = Return content
              /\ trim content = []
              /\ e = TokenValidationError msg_file_empty
                                          TOKEN_NOT_FOUND None)).
Proof.
  unfold validateFromFile.
  destruct (existsSync w); cbn [negb].
  - unfold validateFromFile_try.
    destruct (readFileSync w) as [content | x]; cbn [bind].
    + destruct (trim content) as [| c t] eqn:Ht.
      * cbn. intros [= <-]. split; [reflexivity |].
        right; right. split; [reflexivity |]. exists content.
        repeat split. exact Ht.
      * replace (len (c :: t) =? 0) with false by reflexivity.
        destruct (validateToken_both_returns config (c :: t) file ev)
          as (r & Hr & _);
          [rewrite <- Ht, trim_idempotent, Ht; discriminate |].
        rewrite Hr. cbn [bind].
        destruct (nullish (cleanup options) false);
          [destruct (unlinkSync w) |]; discriminate.
    + intros H. split; [reflexivity |]. right; left.
      split; [reflexivity |]. exists x. split; [reflexivity |].
      destruct x; cbn in H; injection H as <-; reflexivity.
  - cbn. intros [= <-]. split; [reflexivity |]. left. split; reflexivity.
Qed.

(** X23. When the file exists, can be read and is not blank,
    [validateFromFile] returns the result of validating the trimmed content
    with method [both] and source [file].  The file is removed exactly when
    [cleanup] was asked for and [unlinkSync] succeeded; a failed removal
    only appends a warning and leaves validity and errors untouched. *)
Theorem validateFromFile_returns
  (config : TokenCheckerConfig) (options : FileTokenOptions) (w : FileWorld)
  (ev : net_event) (content : jsstring) :
  existsSync w = true ->
  readFileSync w = Return content ->
  trim content <> [] ->
  let run := validateFromFile gt_zero String_of config options w ev in
  exists r0 r,
    validateToken gt_zero config (JStr (trim content)) file both ev
    = Return r0
    /\ file_outcome run = Return r
    /\ isValid r = isValid r0
    /\ errors r = errors r0
    /\ format r = format r0
    /\ api r = api r0
    /\ source (metadata r) = file
    /\ warnings r
       = warnings r0
         ++ match cleanup options, unlinkSync w with
            | Some true, Throw x => [msg_cleanup_failed String_of x]
            | _, _ => []
            end
    /\ (file_removed run = true
        <-> cleanup options = Some true /\ exists u, unlinkSync w = Return u).
Proof.
  intros He Hread Ht run. subst run. unfold validateFromFile.
  rewrite He. cbn [negb]. unfold validateFromFile_try.
  rewrite Hread. cbn [bind].
  destruct (len (trim content) =? 0) eqn:El;
    [apply len_nil_iff in El; contradiction |].
  destruct (validateToken_both_returns config (trim content) file ev)
    as (r0 & Hr & Hsrc & _); [now rewrite trim_idempotent |].
  rewrite Hr. cbn [bind]. exists r0.
  destruct (cleanup options) as [[|] |]; cbn [nullish].
  - destruct (unlinkSync w) as [u | x].
    + exists r0. cbn. rewrite app_nil_r.
      repeat split; try reflexivity; try (now symmetry);
        try (now exists u).
    + eexists. cbn. repeat split; try reflexivity; try (now symmetry);
        try discriminate; try (intros [_ [u Hu]]; discriminate Hu).
  - exists r0. cbn. rewrite app_nil_r.
    repeat split; try reflexivity; try (now symmetry); try discriminate;
      try (intros [Hc _]; discriminate Hc).
  - exists r0. cbn. rewrite app_nil_r.
    repeat split; try reflexivity; try (now symmetry); try discriminate;
      try (intros [Hc _]; discriminate Hc).
Qed.


(** X25. [validateFromEnv] checks the [.env] file before the variable: a
    missing file is [FILE_NOT_FOUND] even when the variable is set; with
    the file present, a variable that is unset or empty is
    [TOKEN_NOT_FOUND] naming the variable, a variable holding only white
    space is [TOKEN_NOT_FOUND] "Token is empty", and any other value is
    validated with method [both] and source [env]. *)
Theorem validateFromEnv_outcome
  (config : TokenCheckerConfig) (options : EnvTokenOptions) (w : EnvWorld)
  (ev : net_event) :
  let path := or_string (envPath options) (cwd_env w) in
  let name := or_string (tokenVar options) (lit "DISCORD_TOKEN") in
  let run := validateFromEnv gt_zero config options w ev in
  (env_existsSync w path = false ->
   run = Throw (TokenValidationError (msg_env_file_not_found path)
                                     FILE_NOT_FOUND None))
  /\ (env_existsSync w path = true ->
      process_env w path name = None \/ process_env w path name = Some [] ->
      run = Throw (TokenValidationError (msg_env_var_not_found name)
                                        TOKEN_NOT_FOUND None))
  /\ (env_existsSync w path = true ->
      forall v, process_env w path name = Some v -> v <> [] ->
        trim v = [] ->
        run = Throw (TokenValidationError (lit "Token is empty")
                                          TOKEN_NOT_FOUND None))
  /\ (env_existsSync w path = true ->
      forall v, process_env w path name = Some v -> trim v <> [] ->
        exists r,
          run = Return r
          /\ source (metadata r) = env
          /\ validateToken gt_zero config (JStr v) env both ev = Return r).
Proof.
  intros path name run. subst run. unfold validateFromEnv.
  fold path. fold name.
  split; [| split; [| split]].
  - intros ->. reflexivity.
  - intros -> [-> | ->]; reflexivity.
  - intros -> v -> Hv Ht. destruct v as [| c v]; [now destruct Hv |].
    unfold validateToken. cbn [negb].
    now rewrite (validateFormat_blank (c :: v)) by (trivial; discriminate).
  - intros -> v -> Ht. destruct v as [| c v]; [now destruct Ht |].
    cbn [negb].
    destruct (validateToken_both_returns config (c :: v) env ev Ht)
      as (r & Hr & Hs & _).
    exists r. split; [exact Hr |]. split; [now symmetry | exact Hr].
Qed.

End PipelineProperties.

(* ===================================================================== *)
(** ** The further properties at sample inputs *)
(* ===================================================================== *)

Lemma validateFormat_ignores_outer_whitespace_sample :
  validateFormat (JStr (SPACE :: short_token ++ [10%N]))
  = validateFormat (JStr short_token).
Proof.
  assert (H : trim (SPACE :: short_token ++ [10%N]) <> [])
    by (vm_compute; discriminate).
  exact (proj1 (validateFormat_ignores_outer_whitespace _ H)).
Defined.

Lemma hasCorrectParts_iff_two_dots_sample :
  parts (metadata (validateFormat_trimmed odd_token)) = 3.
Proof.
  exact (proj1 (hasCorrectParts_iff_two_dots odd_token
                  (validateFormat_trimmed odd_token) eq_refl)).
Defined.

Lemma validateFormat_valid_iff_flags_sample :
  isValid (validateFormat_trimmed short_token) = true.
Proof.
  exact (validateFormat_valid_iff_flags short_token
           (validateFormat_trimmed short_token) eq_refl).
Defined.

Lemma bot_token_fails_space_check_sample :
  hasNoSpaces (format (validateFormat_trimmed (lit "Bot abc.def.ghi")))
  = false.
Proof.
  exact (proj1 (bot_token_fails_space_check (lit "Bot abc.def.ghi")
                  (validateFormat_trimmed (lit "Bot abc.def.ghi"))
                  eq_refl eq_refl)).
Defined.

Lemma extractUserId_result_is_digits_sample :
  all_digits_test sample_user_id = true.
Proof.
  exact (proj1 (extractUserId_result_is_digits (JStr sample_token)
                  sample_user_id eq_refl)).
Defined.

Lemma extractUserId_round_trip_sample :
  extractUserId (JStr (join3 (base64_of_ascii (lit "42")) (lit "x") (lit "y")))
  = Return (Some (lit "42")).
Proof.
  apply (extractUserId_round_trip (lit "42") (lit "x") (lit "y")).
  - reflexivity.
  - vm_compute. intuition discriminate.
  - vm_compute. intuition discriminate.
Defined.

Lemma extractTimestamp_result_range_sample :
  1700000000000 mod 1000 = 0 /\ Z.abs 1700000000000 <= 8640000000000000.
Proof.
  exact (extractTimestamp_result_range (JStr sample_token) 1700000000000
           eq_refl).
Defined.

Lemma extractTimestamp_out_of_range_sample :
  extractTimestamp
    (JStr (join3 (lit "a") (base64_of_ascii (decimal 8640000000001))
                 (lit "c")))
  = Return (Some None).
Proof.
  apply (extractTimestamp_out_of_range 8640000000001 (lit "a") (lit "c")).
  - reflexivity.
  - vm_compute. intuition discriminate.
  - vm_compute. intuition discriminate.
Defined.

Lemma getTokenAge_bounds_sample :
  exists n unit,
    getTokenAge 1700090000000 1700000000000 = decimal n ++ unit
    /\ 0 <= n.
Proof.
  assert (H1 : 1700000000000 <= 1700090000000) by (vm_compute; discriminate).
  assert (H2 : 1700090000000 - 1700000000000 < 2 ^ 53) by reflexivity.
  destruct (getTokenAge_bounds 1700090000000 1700000000000 H1 H2)
    as (n & unit & E & Hcase).
  exists n, unit. split; [exact E |].
  destruct Hcase as [(_ & H & _) | [(_ & H & _) | [(_ & H & _) | (_ & H & _)]]];
    lia.
Defined.

Lemma validateWithApi_success_iff_sample :
  exists r,
    validateWithApi sample_gt_zero (JStr sample_token)
                    (as_partial default_config) (ResponseEnd ok_response)
    = Return r
    /\ success r = true.
Proof.
  destruct (validateWithApi_returns sample_gt_zero (JStr sample_token)
              (as_partial default_config) (ResponseEnd ok_response))
    as (r & Hr).
  exists r. split; [exact Hr |].
  apply (validateWithApi_success_iff sample_gt_zero _ _ _ r Hr).
  exists ok_response, (JsonObject []).
  split; [reflexivity |]. split; [reflexivity |]. split; [reflexivity |].
  split; [discriminate | reflexivity].
Defined.

Lemma validateWithApi_userInfo_iff_sample :
  exists r,
    validateWithApi sample_gt_zero (JStr sample_token)
                    (as_partial default_config) (ResponseEnd ok_response)
    = Return r
    /\ userInfo r <> None.
Proof.
  destruct (validateWithApi_returns sample_gt_zero (JStr sample_token)
              (as_partial default_config) (ResponseEnd ok_response))
    as (r & Hr).
  exists r. split; [exact Hr |].
  apply (validateWithApi_userInfo_iff sample_gt_zero _ _ _ r Hr).
  split; [injection Hr as <-; reflexivity | discriminate].
Defined.

Lemma validateWithApi_response_fields_sample :
  exists r,
    validateWithApi sample_gt_zero (JStr sample_token)
                    (as_partial default_config)
                    (ResponseEnd unauthorized_empty_body)
    = Return r
    /\ statusCode r = None
    /\ rateLimited r = Some false.
Proof.
  destruct (validateWithApi_returns sample_gt_zero (JStr sample_token)
              (as_partial default_config)
              (ResponseEnd unauthorized_empty_body))
    as (r & Hr).
  exists r. split; [exact Hr |].
  apply (validateWithApi_response_fields sample_gt_zero _ _ _ r Hr).
  injection Hr as <-. reflexivity.
Defined.

Lemma parseUserInfo_discriminator_sample :
  exists u,
    parseUserInfo sample_gt_zero (JsonObject []) = Return u
    /\ discriminator u = JsonString (lit "0").
Proof.
  assert (Hn : JsonObject [] <> JsonNull) by discriminate.
  destruct (proj2 (parseUserInfo_discriminator sample_gt_zero (JsonObject []))
              Hn eq_refl)
    as (u & Hu & _ & _ & Hd & _).
  exists u. split; [exact Hu | exact (Hd eq_refl)].
Defined.

Lemma getRetryDelay_round_trip_sample :
  exists e,
    makeApiRequest sample_gt_zero (JStr sample_token) default_config
                   (ResponseEnd rate_limited_response) = reject e
    /\ isRateLimited e = true
    /\ getRetryDelay e = Num 5.
Proof.
  assert (H : Z.abs 5 <= 2 ^ 53) by (vm_compute; discriminate).
  exact (getRetryDelay_round_trip sample_gt_zero (JStr sample_token)
           default_config rate_limited_response (JsonObject []) 5
           H eq_refl eq_refl eq_refl).
Defined.

Lemma getRetryDelay_default_sample :
  getRetryDelay
    (TokenValidationError msg_unauthorized UNAUTHORIZED
       (Some (DStatus 401 (JsonObject []))))
  = Num 60.
Proof.
  apply (getRetryDelay_default sample_gt_zero (JStr sample_token)
           default_config (ResponseEnd unauthorized_response)).
  - reflexivity.
  - discriminate.
Defined.


Lemma validateToken_without_api_sample :
  validateToken sample_gt_zero default_config (JStr short_token) direct
                format_only RequestTimeout
  = Return (with_source (validateFormat_trimmed short_token) direct).
Proof.
  exact (proj1 (validateToken_without_api sample_gt_zero default_config
                  (JStr short_token) direct format_only RequestTimeout
                  (or_introl eq_refl))).
Defined.

Lemma validateToken_valid_has_no_errors_sample :
  exists r,
    validateToken sample_gt_zero default_config (JStr sample_token) direct
                  both (ResponseEnd ok_response) = Return r
    /\ isValid r = true
    /\ errors r = [].
Proof.
  destruct (validateToken_both_returns sample_gt_zero default_config
              sample_token direct (ResponseEnd ok_response))
    as (r & Hr & _ & E); [vm_compute; discriminate |].
  assert (Hv : isValid r = true) by (rewrite E; reflexivity).
  exists r. split; [exact Hr |]. split; [exact Hv |].
  exact (proj1 (validateToken_valid_has_no_errors sample_gt_zero _ _ _ _ _
                  r Hr Hv)).
Defined.

Lemma validateToken_throws_iff_sample :
  validateToken sample_gt_zero default_config (JStr (lit "   ")) direct both
                RequestTimeout
  = Throw (TokenValidationError (lit "Token is empty") TOKEN_NOT_FOUND None).
Proof.
  apply (validateToken_throws_iff sample_gt_zero default_config (lit "   ")
           direct both RequestTimeout).
  split; [discriminate | split; reflexivity].
Defined.

Lemma validateToken_ignores_validateFormat_option_sample :
  validateToken sample_gt_zero default_config (JStr odd_token) direct both
                (ResponseEnd unauthorized_response)
  = validateToken sample_gt_zero
      {| checkApi := true; timeout := 10000; includeUserInfo := true;
         validateFormat_opt := false; userAgent := None |}
      (JStr odd_token) direct both (ResponseEnd unauthorized_response).
Proof.
  apply validateToken_ignores_validateFormat_option; reflexivity.
Defined.

Lemma validateFromFile_throws_sample :
  file_removed
    (validateFromFile sample_gt_zero sample_String_of default_config
       {| filePath := lit "input.txt"; cleanup := Some true |}
       {| existsSync := true; readFileSync := Return (lit "  ");
          unlinkSync := Return tt |}
       RequestTimeout)
  = false.
Proof.
  exact (proj1 (validateFromFile_throws sample_gt_zero sample_String_of
                  default_config
                  {| filePath := lit "input.txt"; cleanup := Some true |}
                  {| existsSync := true; readFileSync := Return (lit "  ");
                     unlinkSync := Return tt |}
                  RequestTimeout
                  (TokenValidationError msg_file_empty TOKEN_NOT_FOUND None)
                  eq_refl)).
Defined.

Lemma validateFromFile_returns_sample :
  exists r,
    file_outcome
      (validateFromFile sample_gt_zero sample_String_of default_config
         {| filePath := lit "input.txt"; cleanup := Some true |}
         sample_file_world (ResponseEnd ok_response))
    = Return r
    /\ source (metadata r) = file.
Proof.
  assert (Ht : trim (sample_token ++ [10%N]) <> [])
    by (vm_compute; discriminate).
  destruct (validateFromFile_returns sample_gt_zero sample_String_of
              default_config
              {| filePath := lit "input.txt"; cleanup := Some true |}
              sample_file_world (ResponseEnd ok_response)
              (sample_token ++ [10%N]) eq_refl eq_refl Ht)
    as (r0 & r & _ & Hr & _ & _ & _ & _ & Hs & _).
  exists r. split; [exact Hr | exact Hs].
Defined.


Lemma validateFromEnv_outcome_sample :
  exists r,
    validateFromEnv sample_gt_zero default_config
      {| envPath := None; tokenVar := None |} sample_env_world
      (ResponseEnd ok_response) = Return r
    /\ source (metadata r) = env.
Proof.
  assert (Ht : trim sample_token <> []) by (vm_compute; discriminate).
  destruct (validateFromEnv_outcome sample_gt_zero default_config
              {| envPath := None; tokenVar := None |} sample_env_world
              (ResponseEnd ok_response))
    as (_ & _ & _ & Hret).
  destruct (Hret eq_refl sample_token eq_refl Ht) as (r & Hr & Hs & _).
  exists r. split; [exact Hr | exact Hs].
Defined.

(* ===================================================================== *)
(** ** The platform model on further sample inputs *)
(* ===================================================================== *)

(** The base64 decoder reads the low byte of a code unit: U+014D counts as
    [M]. *)
Example low_byte_user_id :
  extractUserId (JStr (333%N :: lit "TIz.x.y")) = Return (Some (lit "123")).
Proof. reflexivity. Qed.

Example low_byte_timestamp :
  extractTimestamp (JStr (lit "a." ++ 333%N :: lit "TIz.c"))
  = Return (Some (Some 123000)).
Proof. reflexivity. Qed.

Example parseInt_rounds_to_binary64 :
  parseInt (lit "9007199254740993") = Num 9007199254740992.
Proof. vm_compute. reflexivity. Qed.

Example parseInt_not_a_number :
  parseInt (lit "Wed, 21 Oct 2015 07:28:00 GMT") = NaN.
Proof. reflexivity. Qed.

(** A 200 response whose [premium_type] is an object with an own
    [toString] property: the comparison throws and the request is rejected
    as a parse failure. *)
Example premium_type_conversion_fails :
  makeApiRequest sample_gt_zero (JStr sample_token) default_config
    (ResponseEnd unconvertible_premium_response)
  = reject (TokenValidationError msg_parse_failed API_ERROR
              (Some (DParse (lit "Cannot convert object to primitive value")
                            unconvertible_premium_body))).
Proof. reflexivity. Qed.
